(** * Idle Dungeon: the simulation engine and the player registry

    A shallow embedding of the Go sources of the game server
    ([processPlayer], [createHero], [simulateBattle], [UpgradeStation],
    [getStationByType], [getOrCreatePlayer], and from the single-file
    server [upgradeStation], [generatePlayerID], [handleWebSocket],
    [handleClientMessage], [handleMessages], [handlePlayer] and
    [handleUpgrade]) together with the properties the specification
    states about them and further properties read off the code.

    Conventions of the embedding.
    - Go's [int] is the 64-bit two's-complement integer of the usual
      server targets: a [Z] kept inside [int_min, int_max] by [wrap].
    - Go's [float64] is IEEE 754 binary64, taken from the Standard
      Library's executable specification ([SpecFloat], precision 53,
      maximal exponent 1024, round to nearest even).
    - Every pointer of the data model ([*Player], [*Factory], [*Station],
      [*Progress]) is created by one composite literal in
      [getOrCreatePlayer] and stored in exactly one field, so the object
      graph below a registry key is a tree: a player is a nested record
      stored under its identifier, and a [*Station] is the selector of
      the factory field it points to. *)

From Stdlib Require Import ZArith QArith Qabs Lia Bool List String Ascii.
From Stdlib Require Import SpecFloat.
From stdpp Require Import gmap strings.

Open Scope Z_scope.

(** ** Go's [int] *)

Module GoInt.

Definition int_min : Z := - 2 ^ 63.
Definition int_max : Z := 2 ^ 63 - 1.

Definition in_range (z : Z) : bool := (int_min <=? z) && (z <=? int_max).

(** Reduction to the two's-complement representative. *)
Definition wrap (z : Z) : Z := (z + 2 ^ 63) mod 2 ^ 64 - 2 ^ 63.

Definition add (a b : Z) : Z := wrap (a + b).
Definition sub (a b : Z) : Z := wrap (a - b).
Definition mul (a b : Z) : Z := wrap (a * b).

(** Go's [/] on integers truncates toward zero. *)
Definition quot (a b : Z) : Z := wrap (Z.quot a b).

End GoInt.

(** ** Go's [float64] *)

Module Float64.

Definition prec : Z := 53.
Definition emax : Z := 1024.

Definition float64 : Type := spec_float.

(** [float64(n)] for an integer [n]: the nearest binary64 value. *)
Definition of_int (n : Z) : float64 := binary_normalize prec emax n 0 false.

Definition mul (x y : float64) : float64 := SFmul prec emax x y.
Definition add (x y : float64) : float64 := SFadd prec emax x y.

(** The decimal constants of the source, each the binary64 value nearest
    to the decimal: a correctly rounded quotient of two small integers. *)
Definition lit (num den : Z) : float64 :=
  SFdiv prec emax (of_int num) (of_int den).

Definition c_1_0 : float64 := lit 1 1.
Definition c_0_2 : float64 := lit 2 10.
Definition c_1_5 : float64 := lit 15 10.

(** Integer part of a finite value, rounding toward zero. *)
Definition trunc (x : float64) : option Z :=
  match x with
  | S754_zero _ => Some 0
  | S754_finite s m e =>
      let a := Z.shiftl (Zpos m) e in
      Some (if s then - a else a)
  | S754_infinity _ | S754_nan => None
  end.

(** [int(x)]: truncation toward zero.  When the value does not fit the
    language leaves the result to the implementation; the amd64 code
    (CVTTSD2SQ) produces the minimal integer, and so does this model. *)
Definition to_int (x : float64) : Z :=
  match trunc x with
  | Some z => if GoInt.in_range z then z else GoInt.int_min
  | None => GoInt.int_min
  end.

(** The rational a float denotes (0 for the non-finite ones). *)
Definition to_Q (x : float64) : Q :=
  match x with
  | S754_finite s m e =>
      let q := if 0 <=? e then inject_Z (Zpos m * 2 ^ e)
               else Qmake (Zpos m) (Z.to_pos (2 ^ (- e))) in
      if s then Qopp q else q
  | _ => 0%Q
  end.

End Float64.

Abbreviation float64 := Float64.float64.

(** ** Data model (the [models] package) *)

Record Station : Type := mkStation {
  Level : Z;
  Multiplier : float64;
  Cost : Z
}.

Record Factory : Type := mkFactory {
  HPStation : Station;
  ArmorStation : Station;
  LootStation : Station;
  AttackStation : Station
}.

Record Progress : Type := mkProgress {
  DungeonLevel : Z;
  Gold : Z;
  Experience : Z
}.

Record Hero : Type := mkHero {
  HP : Z;
  Armor : Z;
  Attack : Z;
  Loot : Z
}.

(** The fields [Factory] and [Progress] of the Go struct carry their JSON
    names here, the capitalised ones being the record types. *)
Record Player : Type := mkPlayer {
  ID : string;
  Name : string;
  factory : Factory;
  progress : Progress;
  LastSeen : Z
}.

Record BattleResult : Type := mkBattleResult {
  Victory : bool;
  GoldReward : Z;
  ExpReward : Z
}.

(** A [*Station] obtained from a factory: the field it points to. *)
Inductive StationRef : Type := HPRef | ArmorRef | LootRef | AttackRef.

Definition deref (f : Factory) (r : StationRef) : Station :=
  match r with
  | HPRef => HPStation f
  | ArmorRef => ArmorStation f
  | LootRef => LootStation f
  | AttackRef => AttackStation f
  end.

Definition store (f : Factory) (r : StationRef) (s : Station) : Factory :=
  match r with
  | HPRef => mkFactory s (ArmorStation f) (LootStation f) (AttackStation f)
  | ArmorRef => mkFactory (HPStation f) s (LootStation f) (AttackStation f)
  | LootRef => mkFactory (HPStation f) (ArmorStation f) s (AttackStation f)
  | AttackRef => mkFactory (HPStation f) (ArmorStation f) (LootStation f) s
  end.

(** ** Station upgrades ([game/upgrade.go]) *)

Definition getStationByType (factory : Factory) (stationType : string)
  : option StationRef :=
  if String.eqb stationType "hp" then Some HPRef
  else if String.eqb stationType "armor" then Some ArmorRef
  else if String.eqb stationType "loot" then Some LootRef
  else if String.eqb stationType "attack" then Some AttackRef
  else None.

(** The four assignments of the success path, on the station alone. *)
Definition upgraded (s : Station) : Station :=
  {| Level := GoInt.add (Level s) 1;
     Multiplier := Float64.add (Multiplier s) Float64.c_0_2;
     Cost := Float64.to_int (Float64.mul (Float64.of_int (Cost s)) Float64.c_1_5) |}.

Definition UpgradeStation (player : Player) (stationType : string) : Player * bool :=
  match getStationByType (factory player) stationType with
  | None => (player, false)
  | Some r =>
      let station := deref (factory player) r in
      if Gold (progress player) <? Cost station then (player, false)
      else
        let progress' :=
          {| DungeonLevel := DungeonLevel (progress player);
             Gold := GoInt.sub (Gold (progress player)) (Cost station);
             Experience := Experience (progress player) |} in
        ({| ID := ID player;
            Name := Name player;
            factory := store (factory player) r (upgraded station);
            progress := progress';
            LastSeen := LastSeen player |}, true)
  end.

(** [upgradeStation] of the single-file server: the same switch and the
    same four assignments, with no result. *)
Definition upgradeStation (player : Player) (stationType : string) : Player :=
  let station :=
    if String.eqb stationType "hp" then Some HPRef
    else if String.eqb stationType "armor" then Some ArmorRef
    else if String.eqb stationType "loot" then Some LootRef
    else if String.eqb stationType "attack" then Some AttackRef
    else None in
  match station with
  | None => player
  | Some r =>
      let station := deref (factory player) r in
      if Gold (progress player) >=? Cost station then
        {| ID := ID player;
           Name := Name player;
           factory := store (factory player) r (upgraded station);
           progress :=
             {| DungeonLevel := DungeonLevel (progress player);
                Gold := GoInt.sub (Gold (progress player)) (Cost station);
                Experience := Experience (progress player) |};
           LastSeen := LastSeen player |}
      else player
  end.

Definition defaultStation : Station :=
  {| Level := 1; Multiplier := Float64.c_1_0; Cost := 100 |}.

Definition iter_upgraded (n : nat) : Station := Nat.iter n upgraded defaultStation.

(** [n] successful upgrades of the station [stationType] of one player.
    Between two of them anything may happen to the player (battles, gold
    income, upgrades of the other stations) as long as that station is
    left as it is. *)
Definition station_of (player : Player) (stationType : string) : option Station :=
  deref (factory player) <$> getStationByType (factory player) stationType.

Inductive upgrades (stationType : string) : nat -> Player -> Player -> Prop :=
| upgrades_O : forall p, upgrades stationType O p p
| upgrades_S : forall n p q q' r,
    upgrades stationType n p q ->
    station_of q' stationType = station_of q stationType ->
    UpgradeStation q' stationType = (r, true) ->
    upgrades stationType (S n) p r.

(** The cost curve in the words of the specification: started at 100,
    multiplied by 1.5 and truncated at every level. *)
Fixpoint cost_seq (n : nat) : Z :=
  match n with
  | O => 100
  | S m => 3 * cost_seq m / 2
  end.

(** The closed form [floor (100 * 1.5 ^ n)]. *)
Definition cost_closed (n : nat) : Z := 100 * 3 ^ Z.of_nat n / 2 ^ Z.of_nat n.

(** Distance of a multiplier from [1.0 + 0.2 * n]. *)
Definition multiplier_error (m : float64) (n : nat) : Q :=
  Qabs (Float64.to_Q m - (1 + inject_Z (Z.of_nat n) * (2 # 10)))%Q.

Definition tolerance : Q := 1 # 1000000000.

(** ** Battles ([game/battle.go]) *)

Definition max (a b : Z) : Z := if a >? b then a else b.

Definition createHero (f : Factory) : Hero :=
  let baseHP := 100 in
  let baseArmor := 10 in
  let baseAttack := 20 in
  let baseLoot := 1 in
  {| HP := Float64.to_int (Float64.mul (Float64.of_int baseHP) (Multiplier (HPStation f)));
     Armor := Float64.to_int (Float64.mul (Float64.of_int baseArmor) (Multiplier (ArmorStation f)));
     Attack := Float64.to_int (Float64.mul (Float64.of_int baseAttack) (Multiplier (AttackStation f)));
     Loot := Float64.to_int (Float64.mul (Float64.of_int baseLoot) (Multiplier (LootStation f))) |}.

(** The [for heroHP > 0 && enemyHP > 0] loop; [fuel] bounds the number of
    iterations, [None] means the bound was reached before the loop exit.
    The result is the pair [(heroHP, enemyHP)] at the exit. *)
Fixpoint battleLoop (fuel : nat) (heroDamage enemyDamage heroHP enemyHP : Z)
  : option (Z * Z) :=
  if (heroHP >? 0) && (enemyHP >? 0) then
    match fuel with
    | O => None
    | S fuel' =>
        let enemyHP := GoInt.sub enemyHP heroDamage in
        if enemyHP <=? 0 then Some (heroHP, enemyHP)
        else battleLoop fuel' heroDamage enemyDamage
                        (GoInt.sub heroHP enemyDamage) enemyHP
    end
  else Some (heroHP, enemyHP).

Definition enemyHP_at (dungeonLevel : Z) : Z := GoInt.add 50 (GoInt.mul dungeonLevel 10).
Definition enemyAttack_at (dungeonLevel : Z) : Z := GoInt.add 15 (GoInt.mul dungeonLevel 5).

Definition simulateBattleFuel (fuel : nat) (hero : Hero) (dungeonLevel : Z)
  : option BattleResult :=
  let enemyHP := enemyHP_at dungeonLevel in
  let enemyAttack := enemyAttack_at dungeonLevel in
  let heroHP := HP hero in
  let heroDamage := max 1 (GoInt.sub (Attack hero) (GoInt.quot enemyAttack 2)) in
  let enemyDamage := max 1 (GoInt.sub enemyAttack (Armor hero)) in
  match battleLoop fuel heroDamage enemyDamage heroHP enemyHP with
  | None => None
  | Some (heroHP, _) =>
      let victory := heroHP >? 0 in
      let goldReward := GoInt.mul (GoInt.add 10 (GoInt.mul dungeonLevel 2)) (Loot hero) in
      let expReward := GoInt.add 5 dungeonLevel in
      Some {| Victory := victory; GoldReward := goldReward; ExpReward := expReward |}
  end.

(** Every strike takes at least one point from the enemy, so the enemy's
    initial hit points bound the number of iterations. *)
Definition battleFuel (dungeonLevel : Z) : nat := Z.to_nat (enemyHP_at dungeonLevel).

Definition simulateBattle (hero : Hero) (dungeonLevel : Z) : BattleResult :=
  match simulateBattleFuel (battleFuel dungeonLevel) hero dungeonLevel with
  | Some r => r
  | None => {| Victory := false; GoldReward := 0; ExpReward := 0 |}
  end.

Definition processPlayer (player : Player) : Player :=
  let hero := createHero (factory player) in
  let battleResult := simulateBattle hero (DungeonLevel (progress player)) in
  let progress' :=
    if Victory battleResult then
      {| DungeonLevel := GoInt.add (DungeonLevel (progress player)) 1;
         Gold := GoInt.add (Gold (progress player)) (GoldReward battleResult);
         Experience := GoInt.add (Experience (progress player)) (ExpReward battleResult) |}
    else
      {| DungeonLevel := DungeonLevel (progress player);
         Gold := GoInt.add (Gold (progress player)) (GoInt.quot (GoldReward battleResult) 2);
         Experience := Experience (progress player) |} in
  {| ID := ID player;
     Name := Name player;
     factory := factory player;
     progress := progress';
     LastSeen := LastSeen player |}.

(** *** The battle algorithm in the words of the specification *)

(** Alternating exchanges with fixed damages, from hit points [(h, e)] of
    hero and enemy to the hit points at the end of the battle. *)
Inductive exchanges (heroDamage enemyDamage : Z) : Z -> Z -> Z -> Z -> Prop :=
| exchanges_over : forall h e,
    h <= 0 \/ e <= 0 ->
    exchanges heroDamage enemyDamage h e h e
| exchanges_kill : forall h e,
    0 < h -> 0 < e -> GoInt.sub e heroDamage <= 0 ->
    exchanges heroDamage enemyDamage h e h (GoInt.sub e heroDamage)
| exchanges_round : forall h e h' e',
    0 < h -> 0 < e -> 0 < GoInt.sub e heroDamage ->
    exchanges heroDamage enemyDamage
              (GoInt.sub h enemyDamage) (GoInt.sub e heroDamage) h' e' ->
    exchanges heroDamage enemyDamage h e h' e'.

Definition resolveBattle_spec (hero : Hero) (dungeonLevel : Z) (r : BattleResult) : Prop :=
  let enemyHP := GoInt.add 50 (GoInt.mul 10 dungeonLevel) in
  let enemyAttack := GoInt.add 15 (GoInt.mul 5 dungeonLevel) in
  let heroDamage := Z.max 1 (GoInt.sub (Attack hero) (GoInt.quot enemyAttack 2)) in
  let enemyDamage := Z.max 1 (GoInt.sub enemyAttack (Armor hero)) in
  exists h e,
    exchanges heroDamage enemyDamage (HP hero) enemyHP h e /\
    (Victory r = true <-> 0 < h) /\
    GoldReward r = GoInt.mul (GoInt.add 10 (GoInt.mul 2 dungeonLevel)) (Loot hero) /\
    ExpReward r = GoInt.add 5 dungeonLevel.

(** [applyOutcome] of the specification. *)
Definition applyOutcome (p : Progress) (outcome : BattleResult) : Progress :=
  if Victory outcome then
    {| DungeonLevel := GoInt.add (DungeonLevel p) 1;
       Gold := GoInt.add (Gold p) (GoldReward outcome);
       Experience := GoInt.add (Experience p) (ExpReward outcome) |}
  else
    {| DungeonLevel := DungeonLevel p;
       Gold := GoInt.add (Gold p) (GoInt.quot (GoldReward outcome) 2);
       Experience := Experience p |}.

(** ** The player registry ([getOrCreatePlayer] of the single-file server) *)

(** A call either returns or panics; a panic unwinds through the deferred
    unlock and leaves the registry as it was. *)
Inductive outcome (A : Type) : Type :=
| Returns : A -> outcome A
| Panics : outcome A.
Arguments Returns {A} _.
Arguments Panics {A}.

(** The slice expression [s[:n]] on a string: a run-time panic when [n]
    exceeds the length. *)
Definition slice_to (s : string) (n : nat) : outcome string :=
  if (n <=? String.length s)%nat then Returns (String.substring 0 n s)
  else Panics.

Definition defaultFactory : Factory :=
  {| HPStation := {| Level := 1; Multiplier := Float64.c_1_0; Cost := 100 |};
     ArmorStation := {| Level := 1; Multiplier := Float64.c_1_0; Cost := 100 |};
     LootStation := {| Level := 1; Multiplier := Float64.c_1_0; Cost := 100 |};
     AttackStation := {| Level := 1; Multiplier := Float64.c_1_0; Cost := 100 |} |}.

Definition defaultProgress : Progress :=
  {| DungeonLevel := 1; Gold := 0; Experience := 0 |}.

(** [now] is the value of [time.Now()] at the call.  The result is the
    registry after the call and the player the returned pointer designates. *)
Definition getOrCreatePlayer (now : Z) (playerID : string)
    (Players : gmap string Player) : outcome (gmap string Player * Player) :=
  match Players !! playerID with
  | Some player =>
      let player' :=
        {| ID := ID player; Name := Name player; factory := factory player;
           progress := progress player; LastSeen := now |} in
      Returns (<[playerID := player']> Players, player')
  | None =>
      match slice_to playerID 8 with
      | Panics => Panics
      | Returns prefix =>
          let player :=
            {| ID := playerID;
               Name := "Player " ++ prefix;
               factory := defaultFactory;
               progress := defaultProgress;
               LastSeen := now |} in
          Returns (<[playerID := player]> Players, player)
      end
  end.

(** ** The operations that change the registry *)

Inductive Op : Type :=
| GetOrCreate (now : Z) (playerID : string)
| Upgrade (playerID stationType : string)
| Tick.

(** [Upgrade] is [UpgradeStation] through the pointer some earlier
    [getOrCreatePlayer] returned for [playerID]; [Tick] is one round of the
    game loop, [processPlayer] on every registered player.  [run] is the
    effect of an operation that is not interrupted: [getOrCreatePlayer]
    and the game loop hold the mutex of the game state, an upgrade holds
    no lock, and what two upgrades in flight can do to one player is the
    relation [steps] further down, not [run]. *)
Definition run (op : Op) (Players : gmap string Player) : gmap string Player :=
  match op with
  | GetOrCreate now playerID =>
      match getOrCreatePlayer now playerID Players with
      | Returns (Players', _) => Players'
      | Panics => Players
      end
  | Upgrade playerID stationType =>
      match Players !! playerID with
      | Some player => <[playerID := fst (UpgradeStation player stationType)]> Players
      | None => Players
      end
  | Tick => processPlayer <$> Players
  end.

Inductive reachable : gmap string Player -> Prop :=
| reachable_empty : reachable ∅
| reachable_run : forall op Players, reachable Players -> reachable (run op Players).

(** Registries on which no addition or multiplication of a tick or of an
    upgrade leaves the range of [int], and the registries reached through
    them when the operations run one at a time. *)
Definition gold_bound : Z := 2 ^ 62.
Definition level_bound : Z := 2 ^ 32.

Definition small (Players : gmap string Player) : Prop :=
  forall playerID player, Players !! playerID = Some player ->
    Gold (progress player) < gold_bound /\
    DungeonLevel (progress player) < level_bound.

Inductive reachable_small : gmap string Player -> Prop :=
| reachable_small_empty : reachable_small ∅
| reachable_small_run : forall op Players,
    reachable_small Players -> small Players -> reachable_small (run op Players).

(** ** Two upgrade requests in flight

    [UpgradeStation] takes no lock, and every request is served by its own
    goroutine.  A call is cut into its statements; one step of the system
    is one statement of one of the two calls. *)

Inductive pc : Type :=
| AtLookup
| AtCheck (station : option StationRef)
| AtFunds (station : StationRef)
| AtGold (station : StationRef)
| AtLevel (station : StationRef)
| AtMultiplier (station : StationRef)
| AtCost (station : StationRef)
| Returned (ok : bool).

Definition with_gold (player : Player) (gold : Z) : Player :=
  {| ID := ID player; Name := Name player; factory := factory player;
     progress := {| DungeonLevel := DungeonLevel (progress player);
                    Gold := gold;
                    Experience := Experience (progress player) |};
     LastSeen := LastSeen player |}.

Definition with_station (player : Player) (r : StationRef) (s : Station) : Player :=
  {| ID := ID player; Name := Name player;
     factory := store (factory player) r s;
     progress := progress player; LastSeen := LastSeen player |}.

Definition statement (stationType : string) (player : Player) (at_ : pc)
  : option (Player * pc) :=
  match at_ with
  | AtLookup =>
      Some (player, AtCheck (getStationByType (factory player) stationType))
  | AtCheck None => Some (player, Returned false)
  | AtCheck (Some r) => Some (player, AtFunds r)
  | AtFunds r =>
      if Gold (progress player) <? Cost (deref (factory player) r)
      then Some (player, Returned false)
      else Some (player, AtGold r)
  | AtGold r =>
      Some (with_gold player
              (GoInt.sub (Gold (progress player)) (Cost (deref (factory player) r))),
            AtLevel r)
  | AtLevel r =>
      let s := deref (factory player) r in
      Some (with_station player r
              {| Level := GoInt.add (Level s) 1;
                 Multiplier := Multiplier s; Cost := Cost s |},
            AtMultiplier r)
  | AtMultiplier r =>
      let s := deref (factory player) r in
      Some (with_station player r
              {| Level := Level s;
                 Multiplier := Float64.add (Multiplier s) Float64.c_0_2;
                 Cost := Cost s |},
            AtCost r)
  | AtCost r =>
      let s := deref (factory player) r in
      Some (with_station player r
              {| Level := Level s; Multiplier := Multiplier s;
                 Cost := Float64.to_int
                           (Float64.mul (Float64.of_int (Cost s)) Float64.c_1_5) |},
            Returned true)
  | Returned _ => None
  end.

Inductive caller : Type := First | Second.

Record system : Type := mkSystem {
  shared : Player;
  first : pc;
  second : pc
}.

Inductive step (stationType : string) : system -> system -> Prop :=
| step_first : forall player a b player' a',
    statement stationType player a = Some (player', a') ->
    step stationType (mkSystem player a b) (mkSystem player' a' b)
| step_second : forall player a b player' b',
    statement stationType player b = Some (player', b') ->
    step stationType (mkSystem player a b) (mkSystem player' a b').

Inductive steps (stationType : string) : system -> system -> Prop :=
| steps_refl : forall s, steps stationType s s
| steps_cons : forall s t u,
    step stationType s t -> steps stationType t u -> steps stationType s u.

(** The same system driven by a schedule, for evaluation. *)
Fixpoint schedule (stationType : string) (order : list caller) (s : system)
  : option system :=
  match order with
  | [] => Some s
  | First :: order' =>
      match statement stationType (shared s) (first s) with
      | Some (player', a') =>
          schedule stationType order' (mkSystem player' a' (second s))
      | None => None
      end
  | Second :: order' =>
      match statement stationType (shared s) (second s) with
      | Some (player', b') =>
          schedule stationType order' (mkSystem player' (first s) b')
      | None => None
      end
  end.

(** One call run alone, statement after statement, to its return. *)
Fixpoint alone (fuel : nat) (stationType : string) (player : Player) (at_ : pc)
  : option (Player * bool) :=
  match at_ with
  | Returned ok => Some (player, ok)
  | _ =>
      match fuel with
      | O => None
      | S fuel' =>
          match statement stationType player at_ with
          | Some (player', at') => alone fuel' stationType player' at'
          | None => None
          end
      end
  end.

(** ** Sample players *)

(** A freshly created player who was given 10000 gold. *)
Definition rich : Player :=
  {| ID := "player-1"; Name := "Player player-1";
     factory := defaultFactory;
     progress := {| DungeonLevel := 1; Gold := 10000; Experience := 0 |};
     LastSeen := 0 |}.

(** A freshly created player. *)
Definition novice : Player :=
  {| ID := "player-1"; Name := "Player player-1";
     factory := defaultFactory;
     progress := defaultProgress;
     LastSeen := 0 |}.

(** A freshly created player whose gold is the price of one upgrade. *)
Definition funded : Player :=
  {| ID := "player-1"; Name := "Player player-1";
     factory := defaultFactory;
     progress := {| DungeonLevel := 1; Gold := 100; Experience := 0 |};
     LastSeen := 0 |}.

(** Both calls pass the funds check before either of them pays. *)
Definition both_check_first : list caller :=
  [First; First; First; Second; Second; Second;
   First; First; First; First; Second; Second; Second; Second].

Definition upgrade_n (n : nat) (stationType : string) (player : Player) : Player :=
  Nat.iter n (fun p => fst (UpgradeStation p stationType)) player.

(** What the cost-growth property asks of the station reached after [n]
    upgrades, as a test that can be evaluated. *)
Definition station_after_ok (n : nat) : bool :=
  let s := iter_upgraded n in
  (Level s =? 1 + Z.of_nat n) &&
  (Cost s =? cost_seq n) &&
  Qle_bool (multiplier_error (Multiplier s) n) tolerance &&
  implb (n <=? 3)%nat (Cost s =? cost_closed n).

(** The states a station goes through while its cost fits an [int]: the
    default station and its first 96 upgrades. *)
Definition station_known (s : Station) : Prop :=
  exists k, (k <= 96)%nat /\ s = iter_upgraded k.

(** What the invariant of the registry needs from the [k]-th of them: a
    cost above zero, a loot factor between 1 and 20, and a cost out of
    reach of a small purse when the next cost would not fit. *)
Definition station_known_ok (k : nat) : bool :=
  let s := iter_upgraded k in
  let loot := Float64.to_int (Float64.mul (Float64.of_int 1) (Multiplier s)) in
  (0 <? Cost s) && (1 <=? loot) && (loot <=? 20) &&
  implb (Cost s <? gold_bound) (k <? 96)%nat.

Definition player_ok (player : Player) : Prop :=
  0 <= Gold (progress player) /\
  1 <= DungeonLevel (progress player) /\
  forall r, station_known (deref (factory player) r).

(** The player "player-1" who never upgrades: the first battle is won,
    every later one is lost at dungeon level 2 and pays 7 gold. *)
Definition idle_at (gold : Z) : Player :=
  {| ID := "player-1"; Name := "Player player-1";
     factory := defaultFactory;
     progress := {| DungeonLevel := 2; Gold := gold; Experience := 6 |};
     LastSeen := 0 |}.

Definition idle_registry (gold : Z) : gmap string Player :=
  {[ "player-1" := idle_at gold ]}.

(** ** Further notions used by the properties below *)

(** Strikes the hero needs to bring [enemyHP] hit points to 0 or below:
    the quotient rounded up. *)
Definition strikes_needed (enemyHP heroDamage : Z) : Z :=
  (enemyHP + heroDamage - 1) / heroDamage.

Definition heroDamage_of (hero : Hero) (dungeonLevel : Z) : Z :=
  max 1 (GoInt.sub (Attack hero) (GoInt.quot (enemyAttack_at dungeonLevel) 2)).

Definition enemyDamage_of (hero : Hero) (dungeonLevel : Z) : Z :=
  max 1 (GoInt.sub (enemyAttack_at dungeonLevel) (Armor hero)).

(** One statistic of the hero as [createHero] computes it from a station,
    and the value the level of the station stands for,
    [floor (base * (1 + 0.2 * (level - 1)))]. *)
Definition hero_stat (base : Z) (s : Station) : Z :=
  Float64.to_int (Float64.mul (Float64.of_int base) (Multiplier s)).

Definition nominal_stat (base : Z) (s : Station) : Z :=
  base * (Level s + 4) / 5.

Definition hero_stat_ok (base : Z) (k : nat) : bool :=
  let s := iter_upgraded k in
  (nominal_stat base s - 1 <=? hero_stat base s) &&
  (hero_stat base s <=? nominal_stat base s) &&
  (base <=? hero_stat base s) &&
  (hero_stat base s <=? hero_stat base (upgraded s)).

Definition hero_stats_ok (k : nat) : bool :=
  hero_stat_ok 100 k && hero_stat_ok 10 k && hero_stat_ok 20 k && hero_stat_ok 1 k.

(** The registry after the first request of "player-1". *)
Definition novice_registry : gmap string Player := {[ "player-1" := novice ]}.

(** ** Requests, connections and messages (the single-file server) *)

(** [strconv.FormatInt] of the Go library: the digits of [i] in [base],
    most significant first, behind a minus sign when [i] is negative.  The
    library fills a 65-byte buffer from the right, one digit per division;
    [fuel] is the size of that buffer. *)
Definition digits : string := "0123456789abcdefghijklmnopqrstuvwxyz".

Definition digit (d : Z) : ascii :=
  match String.get (Z.to_nat d) digits with
  | Some c => c
  | None => "0"%char
  end.

Fixpoint formatBits (fuel : nat) (u b : Z) (a : string) : string :=
  match fuel with
  | O => a
  | S fuel' =>
      if u >=? b
      then formatBits fuel' (u / b) b (String (digit (u mod b)) a)
      else String (digit u) a
  end.

Definition FormatInt (i base : Z) : string :=
  if i <? 0 then String "-"%char (formatBits 64 (- i) base EmptyString)
  else formatBits 64 i base EmptyString.

(** [nanos] is the value of [time.Now().UnixNano()]. *)
Definition generatePlayerID (nanos : Z) : string := FormatInt nanos 36.

(** A [*websocket.Conn] is known by its address only. *)
Abbreviation Conn := positive.

(** The server: the registry and, per connection, the player its pointer
    designates, known by the key of that player in the registry. *)
Record GameServer : Type := mkGameServer {
  gameState : gmap string Player;
  clients : gmap Conn string
}.

(** [r.URL.Query().Get(key)]: the empty string when the key is absent. *)
Definition query_get (query : gmap string string) (key : string) : string :=
  match query !! key with
  | Some v => v
  | None => EmptyString
  end.

(** The part of [handleWebSocket] before the read loop: the identifier of
    the request or a generated one, the player, the entry of the
    connection.  [nanos] and [now] are the two readings of the clock. *)
Definition handleWebSocket_open (nanos now : Z) (conn : Conn)
    (query : gmap string string) (gs : GameServer) : outcome GameServer :=
  let playerID := query_get query "playerID" in
  let playerID :=
    if String.eqb playerID "" then generatePlayerID nanos else playerID in
  match getOrCreatePlayer now playerID (gameState gs) with
  | Panics => Panics
  | Returns (Players', _) =>
      Returns {| gameState := Players'; clients := <[conn := playerID]> (clients gs) |}
  end.

(** The exit of the read loop on a read error. *)
Definition handleWebSocket_close (conn : Conn) (gs : GameServer) : GameServer :=
  {| gameState := gameState gs; clients := delete conn (clients gs) |}.

(** What [json.Unmarshal] stores in an [interface{}]. *)
#[warnings="-register-all"]
Inductive JSON : Type :=
| JNull
| JBool (b : bool)
| JNumber (x : float64)
| JString (s : string)
| JArray (items : list JSON)
| JObject (fields : list (string * JSON)).

Definition handleClientMessage (gs : GameServer) (conn : Conn)
    (msg : gmap string JSON) : GameServer :=
  match clients gs !! conn with
  | None => gs
  | Some player =>
      match msg !! "type" with
      | Some (JString msgType) =>
          if String.eqb msgType "upgrade" then
            match msg !! "station" with
            | Some (JString station) =>
                {| gameState :=
                     alter (fun p => upgradeStation p station) player (gameState gs);
                   clients := clients gs |}
            | _ => gs
            end
          else gs
      | _ => gs
      end
  end.

(** One pass of [handleMessages] over the connections, visited in the
    order [order]; [failed] tells for which connections [WriteMessage]
    returns an error.  The result is the map of connections after the pass
    and the connections the message was written to. *)
Definition write_to (failed : Conn -> bool) (st : gmap Conn string * list Conn)
    (client : Conn) : gmap Conn string * list Conn :=
  if failed client then (delete client (fst st), snd st)
  else (fst st, client :: snd st).

Definition handleMessages_pass (failed : Conn -> bool) (order : list Conn)
    (clients : gmap Conn string) : gmap Conn string * list Conn :=
  foldl (write_to failed) (clients, []) order.

(** HTTP requests and responses, as far as the handlers look at them. *)
Record Request : Type := mkRequest {
  Method : string;
  Query : gmap string string
}.

Inductive Response : Type :=
| Error (code : Z)
| Encoded (player : Player).

Definition handlePlayer (now : Z) (r : Request) (Players : gmap string Player)
  : outcome (gmap string Player * Response) :=
  let playerID := query_get (Query r) "id" in
  if String.eqb playerID "" then Returns (Players, Error 400)
  else
    match getOrCreatePlayer now playerID Players with
    | Panics => Panics
    | Returns (Players', player) => Returns (Players', Encoded player)
    end.

Definition handleUpgrade (now : Z) (r : Request) (Players : gmap string Player)
  : outcome (gmap string Player * Response) :=
  if negb (String.eqb (Method r) "POST") then Returns (Players, Error 405)
  else
    let playerID := query_get (Query r) "playerID" in
    let station := query_get (Query r) "station" in
    if String.eqb playerID "" || String.eqb station "" then
      Returns (Players, Error 400)
    else
      match getOrCreatePlayer now playerID Players with
      | Panics => Panics
      | Returns (Players', player) =>
          let player' := upgradeStation player station in
          Returns (<[playerID := player']> Players', Encoded player')
      end.

(** Two connections, the first of which has gone away. *)
Definition two_connections : gmap Conn string :=
  {[ 1%positive := "player-1"; 2%positive := "player-2" ]}.

Definition first_failed (c : Conn) : bool := Pos.eqb c 1.

(** A request to upgrade the "hp" station of the sample player. *)
Definition post_upgrade : Request :=
  {| Method := "POST";
     Query := {[ "playerID" := "player-1"; "station" := "hp" ]} |}.

Definition station_level_ok (k : nat) : bool :=
  let s := iter_upgraded k in
  (Level s =? 1 + Z.of_nat k) &&
  Qle_bool (multiplier_error (Multiplier s) k) tolerance.

(** * Properties *)

(** ** Station upgrades *)

Lemma getStationByType_factory (f g : Factory) (stationType : string) :
  getStationByType f stationType = getStationByType g stationType.
Proof. reflexivity. Qed.

Lemma deref_store_same (f : Factory) (r : StationRef) (s : Station) :
  deref (store f r s) r = s.
Proof. destruct r; reflexivity. Qed.

Lemma deref_store_other (f : Factory) (r r' : StationRef) (s : Station) :
  r <> r' -> deref (store f r s) r' = deref f r'.
Proof. destruct r, r'; intros H; try reflexivity; congruence. Qed.

(** The shape of a successful call. *)
Lemma UpgradeStation_true (player player' : Player) (stationType : string) :
  UpgradeStation player stationType = (player', true) ->
  exists r,
    getStationByType (factory player) stationType = Some r /\
    Cost (deref (factory player) r) <= Gold (progress player) /\
    factory player' = store (factory player) r (upgraded (deref (factory player) r)) /\
    progress player' =
      {| DungeonLevel := DungeonLevel (progress player);
         Gold := GoInt.sub (Gold (progress player)) (Cost (deref (factory player) r));
         Experience := Experience (progress player) |} /\
    ID player' = ID player /\ Name player' = Name player /\
    LastSeen player' = LastSeen player.
Proof.
  unfold UpgradeStation.
  destruct (getStationByType (factory player) stationType) as [r|]; [|discriminate].
  destruct (Z.ltb_spec (Gold (progress player)) (Cost (deref (factory player) r)));
    [discriminate|].
  intros E. injection E as <-. exists r. repeat split; auto.
Qed.

(** The two servers upgrade alike. *)
Lemma upgradeStation_UpgradeStation (player : Player) (stationType : string) :
  upgradeStation player stationType = fst (UpgradeStation player stationType).
Proof.
  unfold upgradeStation, UpgradeStation, getStationByType.
  destruct (if (stationType =? "hp")%string then Some HPRef
            else if (stationType =? "armor")%string then Some ArmorRef
            else if (stationType =? "loot")%string then Some LootRef
            else if (stationType =? "attack")%string then Some AttackRef
            else None) as [r|]; [|reflexivity].
  cbv zeta.
  destruct (Z.geb_spec (Gold (progress player)) (Cost (deref (factory player) r)));
    destruct (Z.ltb_spec (Gold (progress player)) (Cost (deref (factory player) r)));
    try lia; reflexivity.
Qed.

Lemma upgrades_station (stationType : string) (n : nat) (p q : Player) :
  upgrades stationType n p q ->
  forall s, station_of p stationType = Some s ->
            station_of q stationType = Some (Nat.iter n upgraded s).
Proof.
  induction 1 as [p | n p q q' r _ IH Hsame Hup]; intros s Hs; [exact Hs|].
  specialize (IH s Hs). rewrite <- Hsame in IH.
  apply UpgradeStation_true in Hup as (r0 & Hr0 & _ & Hf & _).
  unfold station_of in *.
  rewrite (getStationByType_factory (factory r) (factory q')), Hr0 in *.
  cbn in *. injection IH as IH.
  rewrite Hf, deref_store_same, IH. reflexivity.
Qed.

Lemma station_after_table : forallb station_after_ok (seq 0 81) = true.
Proof. vm_compute. reflexivity. Qed.

Lemma upgrades_upgrade_n (stationType : string) (n : nat) (p : Player) :
  (forall k, (k < n)%nat ->
     snd (UpgradeStation (upgrade_n k stationType p) stationType) = true) ->
  upgrades stationType n p (upgrade_n n stationType p).
Proof.
  induction n as [|n IH]; intros H; [constructor|].
  apply upgrades_S with (q := upgrade_n n stationType p)
                        (q' := upgrade_n n stationType p).
  - apply IH. intros k Hk. apply H. lia.
  - reflexivity.
  - specialize (H n (Nat.lt_succ_diag_r n)).
    change (upgrade_n (S n) stationType p)
      with (fst (UpgradeStation (upgrade_n n stationType p) stationType)).
    destruct (UpgradeStation (upgrade_n n stationType p) stationType); cbn in *.
    congruence.
Qed.

Lemma rich_upgrades_4 : upgrades "hp" 4 rich (upgrade_n 4 "hp" rich).
Proof.
  apply upgrades_upgrade_n. intros k Hk.
  assert (Hc : k = 0%nat \/ k = 1%nat \/ k = 2%nat \/ k = 3%nat) by lia.
  destruct Hc as [-> | [-> | [-> | ->]]]; vm_compute; reflexivity.
Qed.

(** C1, counterexample: four upgrades of the "hp" station of a player who
    can pay for them leave the cost at 505, while the closed form
    [floor (100 * 1.5 ^ 4)] is 506. *)
Lemma closed_form_cost_fails_at_4 :
  station_of rich "hp" = Some defaultStation /\
  upgrades "hp" 4 rich (upgrade_n 4 "hp" rich) /\
  Cost <$> station_of (upgrade_n 4 "hp" rich) "hp" = Some 505 /\
  cost_closed 4 = 506.
Proof.
  split; [reflexivity|]. split; [exact rich_upgrades_4|].
  split; vm_compute; reflexivity.
Qed.

(** C1, amended: after [n <= 80] successful upgrades of one station that
    started at its default, the level is [1 + n], the cost is the [n]-th
    term of the incremental curve [c (k + 1) = floor (c k * 3 / 2)] from
    [c 0 = 100] (which is the closed form [floor (100 * 1.5 ^ n)] for
    [n <= 3]), and the multiplier is [1.0 + 0.2 * n] up to [10 ^ -9]. *)
Theorem upgrade_cost_growth (stationType : string) (n : nat) (p q : Player) :
  station_of p stationType = Some defaultStation ->
  upgrades stationType n p q ->
  (n <= 80)%nat ->
  exists s,
    station_of q stationType = Some s /\
    Level s = 1 + Z.of_nat n /\
    Cost s = cost_seq n /\
    (multiplier_error (Multiplier s) n <= tolerance)%Q /\
    ((n <= 3)%nat -> Cost s = cost_closed n).
Proof.
  intros Hp Hup Hn.
  exists (iter_upgraded n). split.
  - exact (upgrades_station _ _ _ _ Hup _ Hp).
  - pose proof station_after_table as T.
    rewrite forallb_forall in T.
    assert (Hin : In n (seq 0 81)) by (apply in_seq; lia).
    specialize (T n Hin). unfold station_after_ok in T.
    apply andb_prop in T as [T Hclosed].
    apply andb_prop in T as [T Hmul].
    apply andb_prop in T as [Hlevel Hcost].
    apply Z.eqb_eq in Hlevel, Hcost. apply Qle_bool_iff in Hmul.
    repeat split; auto.
    intros H3. apply Nat.leb_le in H3. rewrite H3 in Hclosed.
    apply Z.eqb_eq. exact Hclosed.
Qed.

Lemma upgrade_cost_growth_witness :
  exists s,
    station_of (upgrade_n 4 "hp" rich) "hp" = Some s /\
    Level s = 1 + Z.of_nat 4 /\
    Cost s = cost_seq 4 /\
    (multiplier_error (Multiplier s) 4 <= tolerance)%Q /\
    ((4 <= 3)%nat -> Cost s = cost_closed 4).
Proof.
  apply (upgrade_cost_growth "hp" 4 rich (upgrade_n 4 "hp" rich)).
  - reflexivity.
  - exact rich_upgrades_4.
  - lia.
Defined.

(** C5: an upgrade the player cannot pay for is rejected: the call
    returns failure and the player (gold, and the level, multiplier and
    cost of the station, with everything else) is as before. *)
Theorem underfunded_upgrade_rejected (player : Player) (stationType : string)
    (s : Station) :
  station_of player stationType = Some s ->
  Gold (progress player) < Cost s ->
  let (player', ok) := UpgradeStation player stationType in
  ok = false /\
  player' = player /\
  Gold (progress player') = Gold (progress player) /\
  station_of player' stationType = Some s.
Proof.
  unfold station_of, UpgradeStation. intros Hs Hlt.
  destruct (getStationByType (factory player) stationType) as [r|] eqn:Hr;
    [|discriminate].
  cbn in Hs. injection Hs as <-.
  apply Z.ltb_lt in Hlt. rewrite Hlt, Hr. cbn.
  repeat split; reflexivity.
Qed.

Lemma underfunded_upgrade_rejected_witness :
  let (player', ok) := UpgradeStation novice "armor" in
  ok = false /\
  player' = novice /\
  Gold (progress player') = Gold (progress novice) /\
  station_of player' "armor" = Some defaultStation.
Proof.
  apply (underfunded_upgrade_rejected novice "armor" defaultStation).
  - reflexivity.
  - vm_compute. reflexivity.
Defined.

(** C7: a station key other than "hp", "armor", "attack" and "loot" makes
    the call a no-op that returns failure: factory and progress (the whole
    player) stay as they were. *)
Theorem unknown_station_rejected (player : Player) (stationType : string) :
  stationType <> "hp" -> stationType <> "armor" ->
  stationType <> "attack" -> stationType <> "loot" ->
  let (player', ok) := UpgradeStation player stationType in
  ok = false /\
  player' = player /\
  factory player' = factory player /\
  progress player' = progress player.
Proof.
  intros Hhp Harmor Hattack Hloot.
  unfold UpgradeStation, getStationByType.
  apply String.eqb_neq in Hhp, Harmor, Hattack, Hloot.
  rewrite Hhp, Harmor, Hloot, Hattack. auto.
Qed.

Lemma unknown_station_rejected_witness :
  let (player', ok) := UpgradeStation rich "speed" in
  ok = false /\
  player' = rich /\
  factory player' = factory rich /\
  progress player' = progress rich.
Proof.
  apply (unknown_station_rejected rich "speed"); discriminate.
Defined.

(** C10: a successful upgrade writes the targeted station and the gold,
    nothing else: the three other stations, [DungeonLevel], [Experience],
    [ID], [Name] and [LastSeen] are those of before the call. *)
Theorem upgrade_frame (player player' : Player) (stationType : string) :
  UpgradeStation player stationType = (player', true) ->
  exists r,
    getStationByType (factory player) stationType = Some r /\
    (forall r', r' <> r ->
       deref (factory player') r' = deref (factory player) r') /\
    DungeonLevel (progress player') = DungeonLevel (progress player) /\
    Experience (progress player') = Experience (progress player) /\
    ID player' = ID player /\
    Name player' = Name player /\
    LastSeen player' = LastSeen player.
Proof.
  intros Hup.
  apply UpgradeStation_true in Hup
    as (r & Hr & _ & Hf & Hp & Hid & Hname & Hseen).
  exists r. rewrite Hf, Hp. repeat split; auto.
  intros r' Hne. apply deref_store_other. congruence.
Qed.

Lemma upgrade_frame_witness :
  exists r,
    getStationByType (factory rich) "hp" = Some r /\
    (forall r', r' <> r ->
       deref (factory (upgrade_n 1 "hp" rich)) r' = deref (factory rich) r') /\
    DungeonLevel (progress (upgrade_n 1 "hp" rich)) = DungeonLevel (progress rich) /\
    Experience (progress (upgrade_n 1 "hp" rich)) = Experience (progress rich) /\
    ID (upgrade_n 1 "hp" rich) = ID rich /\
    Name (upgrade_n 1 "hp" rich) = Name rich /\
    LastSeen (upgrade_n 1 "hp" rich) = LastSeen rich.
Proof.
  apply (upgrade_frame rich (upgrade_n 1 "hp" rich) "hp").
  vm_compute. reflexivity.
Defined.

(** ** The player registry *)

Lemma slice_to_short (s : string) (n : nat) :
  (String.length s < n)%nat -> slice_to s n = Panics.
Proof.
  intros H. unfold slice_to.
  destruct (Nat.leb_spec n (String.length s)); [lia | reflexivity].
Qed.

(** An identifier of eight bytes or more that is not registered yet gets
    the default factory and the default progress. *)
Lemma getOrCreatePlayer_fresh (now : Z) (playerID : string)
    (Players : gmap string Player) :
  Players !! playerID = None ->
  (8 <= String.length playerID)%nat ->
  exists player,
    getOrCreatePlayer now playerID Players
      = Returns (<[playerID := player]> Players, player) /\
    ID player = playerID /\
    factory player = defaultFactory /\
    progress player = defaultProgress /\
    LastSeen player = now.
Proof.
  intros Hnone Hlen. unfold getOrCreatePlayer, slice_to. rewrite Hnone.
  apply Nat.leb_le in Hlen. rewrite Hlen. eexists. split; [reflexivity|].
  auto.
Qed.

(** An unregistered identifier shorter than eight bytes makes the slice
    expression [playerID[:8]] of the display name panic. *)
Lemma getOrCreatePlayer_short (now : Z) (playerID : string)
    (Players : gmap string Player) :
  Players !! playerID = None ->
  (String.length playerID < 8)%nat ->
  getOrCreatePlayer now playerID Players = Panics.
Proof.
  intros Hnone Hlen. unfold getOrCreatePlayer. rewrite Hnone.
  rewrite (slice_to_short _ _ Hlen). reflexivity.
Qed.

(** C2: on a registry that has never seen it, [getOrCreatePlayer] of the
    two-byte identifier "p1" does not return the default player: the slice
    expression of the display name panics. *)
Theorem getOrCreatePlayer_p1_panics (now : Z) :
  getOrCreatePlayer now "p1" ∅ = Panics.
Proof. reflexivity. Qed.

(** ** Integer arithmetic *)

Lemma wrap_in_range (z : Z) :
  GoInt.int_min <= GoInt.wrap z <= GoInt.int_max.
Proof.
  unfold GoInt.wrap, GoInt.int_min, GoInt.int_max.
  pose proof (Z.mod_pos_bound (z + 2 ^ 63) (2 ^ 64)). lia.
Qed.

Lemma wrap_exact (z : Z) :
  GoInt.int_min <= z <= GoInt.int_max -> GoInt.wrap z = z.
Proof.
  unfold GoInt.wrap, GoInt.int_min, GoInt.int_max. intros H.
  rewrite Z.mod_small; lia.
Qed.

Lemma mul_comm (a b : Z) : GoInt.mul a b = GoInt.mul b a.
Proof. unfold GoInt.mul. rewrite Z.mul_comm. reflexivity. Qed.

Lemma max_Zmax (a b : Z) : max a b = Z.max a b.
Proof. unfold max. destruct (Z.gtb_spec a b); lia. Qed.

Lemma max_1_bounds (x : Z) :
  GoInt.int_min <= x <= GoInt.int_max -> 1 <= max 1 x <= GoInt.int_max.
Proof. rewrite max_Zmax. unfold GoInt.int_min, GoInt.int_max. lia. Qed.

(** A strike on a living enemy takes exactly [heroDamage] points: the
    subtraction cannot leave the range. *)
Lemma strike_exact (heroDamage e : Z) :
  1 <= heroDamage <= GoInt.int_max -> 0 < e <= GoInt.int_max ->
  GoInt.sub e heroDamage = e - heroDamage.
Proof.
  intros Hd He. unfold GoInt.sub. apply wrap_exact.
  unfold GoInt.int_min, GoInt.int_max in *. lia.
Qed.

(** ** Battles *)

Section BattleLoop.

Variables heroDamage enemyDamage : Z.

Lemma battleLoop_exchanges (fuel : nat) :
  forall h e h' e',
    battleLoop fuel heroDamage enemyDamage h e = Some (h', e') ->
    exchanges heroDamage enemyDamage h e h' e'.
Proof.
  induction fuel as [|fuel IH]; intros h e h' e'; cbn [battleLoop];
    destruct (Z.gtb_spec h 0); destruct (Z.gtb_spec e 0); cbn [andb];
    try discriminate;
    try (intros [= <- <-]; apply exchanges_over; lia).
  destruct (Z.leb_spec (GoInt.sub e heroDamage) 0).
  - intros [= <- <-]. apply exchanges_kill; lia.
  - intros Hrec. apply exchanges_round; try lia. apply IH, Hrec.
Qed.

Lemma exchanges_functional (h e h1 e1 h2 e2 : Z) :
  exchanges heroDamage enemyDamage h e h1 e1 ->
  exchanges heroDamage enemyDamage h e h2 e2 ->
  h1 = h2 /\ e1 = e2.
Proof.
  intros H1. revert h2 e2.
  induction H1 as [h e Hover | h e Hh He Hkill | h e h1 e1 Hh He Hlive _ IH];
    intros h2 e2 H2; inversion H2; subst; try lia; auto.
Qed.

Lemma battleLoop_more_fuel (fuel : nat) :
  forall h e x,
    battleLoop fuel heroDamage enemyDamage h e = Some x ->
    battleLoop (S fuel) heroDamage enemyDamage h e = Some x.
Proof.
  induction fuel as [|fuel IH]; intros h e x.
  - cbn [battleLoop].
    destruct ((h >? 0) && (e >? 0)); [discriminate | auto].
  - intros H. cbn [battleLoop] in H.
    change (battleLoop (S (S fuel)) heroDamage enemyDamage h e) with
      (if (h >? 0) && (e >? 0) then
         if GoInt.sub e heroDamage <=? 0 then Some (h, GoInt.sub e heroDamage)
         else battleLoop (S fuel) heroDamage enemyDamage
                         (GoInt.sub h enemyDamage) (GoInt.sub e heroDamage)
       else Some (h, e)).
    destruct ((h >? 0) && (e >? 0)); [|exact H].
    destruct (GoInt.sub e heroDamage <=? 0); [exact H|].
    apply IH, H.
Qed.

Hypothesis heroDamage_positive : 1 <= heroDamage <= GoInt.int_max.

(** The enemy's hit points bound the number of iterations. *)
Lemma battleLoop_enough (fuel : nat) :
  forall h e,
    e <= GoInt.int_max -> (Z.to_nat e <= fuel)%nat ->
    exists x, battleLoop fuel heroDamage enemyDamage h e = Some x.
Proof.
  induction fuel as [|fuel IH]; intros h e Hmax Hfuel; cbn [battleLoop];
    destruct (Z.gtb_spec h 0); destruct (Z.gtb_spec e 0); cbn [andb];
    eauto; try lia.
  rewrite strike_exact by lia.
  destruct (Z.leb_spec (e - heroDamage) 0); eauto.
  apply IH; lia.
Qed.

End BattleLoop.

Lemma battleLoop_plus (hd ed : Z) (fuel k : nat) (h e : Z) (x : Z * Z) :
  battleLoop fuel hd ed h e = Some x ->
  battleLoop (fuel + k) hd ed h e = Some x.
Proof.
  intros H. induction k as [|k IH].
  - rewrite Nat.add_0_r. exact H.
  - rewrite Nat.add_succ_r. apply battleLoop_more_fuel, IH.
Qed.

(** On the dungeon levels a game can reach the enemy statistics are the
    formulas read over the integers. *)
Lemma enemy_stats_exact (dungeonLevel : Z) :
  - 2 ^ 59 <= dungeonLevel <= 2 ^ 59 ->
  enemyHP_at dungeonLevel = 50 + 10 * dungeonLevel /\
  enemyAttack_at dungeonLevel = 15 + 5 * dungeonLevel.
Proof.
  intros H. unfold enemyHP_at, enemyAttack_at, GoInt.add, GoInt.mul.
  rewrite (wrap_exact (dungeonLevel * 10)), (wrap_exact (dungeonLevel * 5))
    by (unfold GoInt.int_min, GoInt.int_max; lia).
  rewrite !wrap_exact by (unfold GoInt.int_min, GoInt.int_max; lia).
  lia.
Qed.

Lemma heroDamage_bounds (hero : Hero) (dungeonLevel : Z) :
  1 <= max 1 (GoInt.sub (Attack hero) (GoInt.quot (enemyAttack_at dungeonLevel) 2))
    <= GoInt.int_max.
Proof. apply max_1_bounds, wrap_in_range. Qed.

(** Whatever fuel is given beyond [battleFuel], the battle returns, and
    returns the result of [simulateBattle]. *)
Lemma simulateBattle_enough (hero : Hero) (dungeonLevel : Z) (k : nat) :
  simulateBattleFuel (battleFuel dungeonLevel + k) hero dungeonLevel
    = Some (simulateBattle hero dungeonLevel).
Proof.
  unfold simulateBattle, simulateBattleFuel.
  destruct (battleLoop_enough _ (max 1 (GoInt.sub (enemyAttack_at dungeonLevel) (Armor hero)))
              (heroDamage_bounds hero dungeonLevel)
              (battleFuel dungeonLevel) (HP hero) (enemyHP_at dungeonLevel))
    as [[h e] Hloop].
  - apply wrap_in_range.
  - reflexivity.
  - rewrite (battleLoop_plus _ _ _ k _ _ _ Hloop), Hloop. reflexivity.
Qed.

Lemma simulateBattle_loop (hero : Hero) (dungeonLevel : Z) :
  exists h e,
    battleLoop (battleFuel dungeonLevel)
      (max 1 (GoInt.sub (Attack hero) (GoInt.quot (enemyAttack_at dungeonLevel) 2)))
      (max 1 (GoInt.sub (enemyAttack_at dungeonLevel) (Armor hero)))
      (HP hero) (enemyHP_at dungeonLevel) = Some (h, e) /\
    simulateBattle hero dungeonLevel =
      {| Victory := h >? 0;
         GoldReward := GoInt.mul (GoInt.add 10 (GoInt.mul dungeonLevel 2)) (Loot hero);
         ExpReward := GoInt.add 5 dungeonLevel |}.
Proof.
  pose proof (simulateBattle_enough hero dungeonLevel 0) as H.
  rewrite Nat.add_0_r in H. unfold simulateBattleFuel in H.
  destruct (battleLoop _ _ _ _ _) as [[h e]|] eqn:Hloop; [|discriminate].
  exists h, e. split; [reflexivity|]. congruence.
Qed.

Lemma resolveBattle_spec_simulateBattle (hero : Hero) (dungeonLevel : Z)
    (r : BattleResult) :
  resolveBattle_spec hero dungeonLevel r <-> r = simulateBattle hero dungeonLevel.
Proof.
  destruct (simulateBattle_loop hero dungeonLevel) as (h & e & Hloop & Hsim).
  apply battleLoop_exchanges in Hloop.
  unfold resolveBattle_spec, enemyAttack_at, enemyHP_at in *.
  rewrite !max_Zmax in Hloop.
  rewrite (mul_comm 10), (mul_comm 5), (mul_comm 2).
  split.
  - intros (h1 & e1 & Hex & Hv & Hg & Hx).
    destruct (exchanges_functional _ _ _ _ _ _ _ _ Hloop Hex) as [<- <-].
    rewrite Hsim. destruct r as [v g x]; cbn in *. subst g x. f_equal.
    destruct (Z.gtb_spec h 0); destruct v; intuition (try lia; congruence).
  - intros ->. exists h, e. rewrite Hsim. cbn.
    repeat split; auto; destruct (Z.gtb_spec h 0); try lia; try discriminate.
Qed.

(** C3: [simulateBattle] is the battle algorithm of the specification.
    For every hero and every dungeon level its result is the one result
    the specified algorithm allows: enemy statistics [50 + 10 * level] and
    [15 + 5 * level], damages [max 1 (attack - enemyAttack / 2)] and
    [max 1 (enemyAttack - armor)] fixed before the first exchange, the hero
    striking first, the battle over without a counter-strike as soon as a
    strike leaves the enemy at 0 or below, repetition until one side is at
    0 or below, and victory exactly when the hero is above 0 at the end
    (all sums, differences, products and quotients being those of [int]).
    The default hero is [(100, 10, 20, 1)] and wins at level 1 with 12 gold
    and 6 experience. *)
Theorem simulateBattle_follows_spec :
  (forall hero dungeonLevel r,
     resolveBattle_spec hero dungeonLevel r <-> r = simulateBattle hero dungeonLevel) /\
  createHero defaultFactory = {| HP := 100; Armor := 10; Attack := 20; Loot := 1 |} /\
  simulateBattle {| HP := 100; Armor := 10; Attack := 20; Loot := 1 |} 1
    = {| Victory := true; GoldReward := 12; ExpReward := 6 |}.
Proof.
  split; [exact resolveBattle_spec_simulateBattle|].
  split; vm_compute; reflexivity.
Qed.

(** C9: the battle loop ends for every hero and every dungeon level.  The
    hero's damage is at least 1, a strike on a living enemy lowers its hit
    points by exactly that damage, and [battleFuel] iterations, or any
    larger number, are enough for [simulateBattleFuel] to return. *)
Theorem simulateBattle_terminates (hero : Hero) (dungeonLevel : Z) :
  let heroDamage :=
    max 1 (GoInt.sub (Attack hero) (GoInt.quot (enemyAttack_at dungeonLevel) 2)) in
  1 <= heroDamage /\
  (forall e, 0 < e <= GoInt.int_max -> GoInt.sub e heroDamage < e) /\
  (forall k, exists r,
     simulateBattleFuel (battleFuel dungeonLevel + k) hero dungeonLevel = Some r).
Proof.
  pose proof (heroDamage_bounds hero dungeonLevel) as Hd.
  cbv zeta. split; [lia|]. split.
  - intros e He. rewrite strike_exact; lia.
  - intros k. eexists. apply simulateBattle_enough.
Qed.

(** C6: [processPlayer] applies the outcome of the battle as the
    specification's [applyOutcome] does.  The rewards are
    [(10 + 2 * level) * loot] and [5 + level] whether the battle is won or
    lost; a victory adds 1 to the dungeon level, the gold reward to the
    gold and the experience reward to the experience; a defeat adds the
    truncated half of the gold reward to the gold and leaves dungeon level
    and experience alone.  Nothing else of the player changes. *)
Theorem processPlayer_applies_outcome (player : Player) :
  let hero := createHero (factory player) in
  let level := DungeonLevel (progress player) in
  let outcome := simulateBattle hero level in
  GoldReward outcome = GoInt.mul (GoInt.add 10 (GoInt.mul 2 level)) (Loot hero) /\
  ExpReward outcome = GoInt.add 5 level /\
  progress (processPlayer player) = applyOutcome (progress player) outcome /\
  (Victory outcome = true ->
     progress (processPlayer player) =
       {| DungeonLevel := GoInt.add level 1;
          Gold := GoInt.add (Gold (progress player)) (GoldReward outcome);
          Experience := GoInt.add (Experience (progress player)) (ExpReward outcome) |}) /\
  (Victory outcome = false ->
     progress (processPlayer player) =
       {| DungeonLevel := level;
          Gold := GoInt.add (Gold (progress player))
                            (GoInt.wrap (Z.quot (GoldReward outcome) 2));
          Experience := Experience (progress player) |}) /\
  ID (processPlayer player) = ID player /\
  Name (processPlayer player) = Name player /\
  factory (processPlayer player) = factory player /\
  LastSeen (processPlayer player) = LastSeen player.
Proof.
  cbv zeta.
  destruct (simulateBattle_loop (createHero (factory player))
              (DungeonLevel (progress player))) as (h & e & _ & Hsim).
  unfold processPlayer, applyOutcome. rewrite Hsim. cbn.
  rewrite (mul_comm 2).
  repeat split; auto; intros ->; reflexivity.
Qed.

(** ** Two upgrade requests in flight *)

(** The statements of one call, run without interruption, are the call. *)
Lemma alone_UpgradeStation (player : Player) (stationType : string) :
  alone 8 stationType player AtLookup = Some (UpgradeStation player stationType).
Proof.
  unfold UpgradeStation. cbn [alone statement].
  destruct (getStationByType (factory player) stationType) as [r|];
    [|reflexivity].
  cbn [alone statement].
  destruct (Gold (progress player) <? Cost (deref (factory player) r));
    [reflexivity|].
  cbn [alone statement]. do 2 f_equal.
  unfold with_station, with_gold, upgraded. cbn.
  rewrite !deref_store_same. cbn. f_equal.
  destruct r; reflexivity.
Qed.

Lemma schedule_steps (stationType : string) (order : list caller) :
  forall s s', schedule stationType order s = Some s' -> steps stationType s s'.
Proof.
  induction order as [|c order IH]; intros [player a b] s'; cbn [schedule].
  - intros [= <-]. constructor.
  - destruct c; cbn [shared first second].
    + destruct (statement stationType player a) as [[player' a']|] eqn:Hst;
        [|discriminate].
      intros H. eapply steps_cons; [|apply IH, H]. constructor. exact Hst.
    + destruct (statement stationType player b) as [[player' b']|] eqn:Hst;
        [|discriminate].
      intros H. eapply steps_cons; [|apply IH, H]. constructor. exact Hst.
Qed.

(** One after the other, two requests for the same station of a player
    who owns the price of one upgrade end as the specification says: the
    first succeeds and leaves no gold, the second fails and changes
    nothing. *)
Lemma two_upgrades_in_sequence :
  exists p1,
    UpgradeStation funded "hp" = (p1, true) /\
    Gold (progress p1) = 0 /\
    Level (HPStation (factory p1)) = 2 /\
    Cost (HPStation (factory p1)) = 150 /\
    UpgradeStation p1 "hp" = (p1, false).
Proof. eexists. repeat split; vm_compute; reflexivity. Qed.

(** C8, two successes out of one purse: the player owns exactly the
    price of one "hp" upgrade, both calls read the gold before either
    writes it, both return success, and the gold ends below zero. *)
Theorem concurrent_upgrades_both_succeed :
  exists s,
    steps "hp" {| shared := funded; first := AtLookup; second := AtLookup |} s /\
    first s = Returned true /\
    second s = Returned true /\
    Gold (progress (shared s)) = -150 /\
    Level (HPStation (factory (shared s))) = 3.
Proof.
  destruct (schedule "hp" both_check_first
              {| shared := funded; first := AtLookup; second := AtLookup |})
    as [s|] eqn:Hs; [|vm_compute in Hs; discriminate].
  exists s. split; [apply (schedule_steps _ _ _ _ Hs)|].
  vm_compute in Hs. injection Hs as <-. repeat split.
Qed.

(** ** Gold and dungeon level over the life of a registry *)

Lemma add_exact (a b : Z) :
  GoInt.int_min <= a + b <= GoInt.int_max -> GoInt.add a b = a + b.
Proof. apply wrap_exact. Qed.

Lemma default_hero_loses_at_2 :
  simulateBattle (createHero defaultFactory) 2
    = {| Victory := false; GoldReward := 14; ExpReward := 7 |}.
Proof. vm_compute. reflexivity. Qed.

Lemma processPlayer_idle (gold : Z) :
  processPlayer (idle_at gold) = idle_at (GoInt.add gold 7).
Proof.
  unfold processPlayer, idle_at.
  cbn [factory progress DungeonLevel Gold Experience ID Name LastSeen].
  rewrite default_hero_loses_at_2.
  cbn [Victory GoldReward ExpReward]. reflexivity.
Qed.

Lemma tick_idle (gold : Z) :
  run Tick (idle_registry gold) = idle_registry (GoInt.add gold 7).
Proof.
  unfold run, idle_registry. rewrite map_fmap_singleton, processPlayer_idle.
  reflexivity.
Qed.

Lemma first_tick :
  run Tick (run (GetOrCreate 0 "player-1") ∅) = idle_registry 12.
Proof.
  unfold run, getOrCreatePlayer. rewrite lookup_empty. cbn [slice_to].
  change (slice_to "player-1" 8) with (@Returns string "player-1").
  cbn iota beta. rewrite insert_empty, map_fmap_singleton.
  unfold idle_registry. f_equal; vm_compute; reflexivity.
Qed.

(** Every amount [12 + 7 * n] that fits an [int] is reached by ticks. *)
Lemma idle_reachable (n : Z) :
  0 <= n -> 12 + 7 * n <= GoInt.int_max ->
  reachable (idle_registry (12 + 7 * n)).
Proof.
  revert n. apply (natlike_ind
    (fun n => 12 + 7 * n <= GoInt.int_max -> reachable (idle_registry (12 + 7 * n)))).
  - intros _. change (12 + 7 * 0) with 12. rewrite <- first_tick.
    do 2 apply reachable_run. apply reachable_empty.
  - intros n Hn IH Hmax.
    replace (12 + 7 * Z.succ n) with (GoInt.add (12 + 7 * n) 7).
    + rewrite <- tick_idle. apply reachable_run, IH. lia.
    + rewrite add_exact; unfold GoInt.int_min, GoInt.int_max in *; lia.
Qed.

Lemma station_known_table : forallb station_known_ok (seq 0 97) = true.
Proof. vm_compute. reflexivity. Qed.

Lemma station_known_facts (s : Station) :
  station_known s ->
  0 < Cost s /\
  1 <= Float64.to_int (Float64.mul (Float64.of_int 1) (Multiplier s)) <= 20 /\
  (Cost s < gold_bound -> station_known (upgraded s)).
Proof.
  intros (k & Hk & ->).
  pose proof station_known_table as T. rewrite forallb_forall in T.
  assert (Hin : In k (seq 0 97)) by (apply in_seq; lia).
  specialize (T k Hin). unfold station_known_ok in T.
  apply andb_prop in T as [T Hnext].
  apply andb_prop in T as [T Hhi].
  apply andb_prop in T as [Hcost Hlo].
  apply Z.ltb_lt in Hcost. apply Z.leb_le in Hlo, Hhi.
  repeat split; auto.
  intros Hsmall. apply Z.ltb_lt in Hsmall. rewrite Hsmall in Hnext.
  cbn [implb] in Hnext. apply Nat.ltb_lt in Hnext.
  exists (S k). split; [lia | reflexivity].
Qed.

Lemma station_known_default : station_known defaultStation.
Proof. exists 0%nat. split; [lia | reflexivity]. Qed.

Lemma player_ok_created (playerID name : string) (now : Z) :
  player_ok {| ID := playerID; Name := name; factory := defaultFactory;
               progress := defaultProgress; LastSeen := now |}.
Proof.
  unfold player_ok. cbn. repeat split; try lia.
  intros r. destruct r; exact station_known_default.
Qed.

Lemma reward_exact (level loot : Z) :
  1 <= level < level_bound -> 1 <= loot <= 20 ->
  GoInt.mul (GoInt.add 10 (GoInt.mul level 2)) loot = (10 + level * 2) * loot /\
  0 <= (10 + level * 2) * loot <= 2 ^ 40.
Proof.
  unfold level_bound. intros Hl Hloot.
  assert (Hb : 0 <= (10 + level * 2) * loot <= 2 ^ 40) by nia.
  split; [|exact Hb].
  unfold GoInt.mul, GoInt.add.
  rewrite (wrap_exact (level * 2))
    by (unfold GoInt.int_min, GoInt.int_max; lia).
  rewrite (wrap_exact (10 + level * 2))
    by (unfold GoInt.int_min, GoInt.int_max; lia).
  apply wrap_exact. unfold GoInt.int_min, GoInt.int_max. lia.
Qed.

Lemma processPlayer_ok (player : Player) :
  player_ok player ->
  Gold (progress player) < gold_bound ->
  DungeonLevel (progress player) < level_bound ->
  player_ok (processPlayer player) /\
  DungeonLevel (progress player) <= DungeonLevel (progress (processPlayer player)).
Proof.
  intros (Hgold & Hlevel & Hst) Hg Hl.
  destruct (simulateBattle_loop (createHero (factory player))
              (DungeonLevel (progress player))) as (h & e & _ & Hsim).
  destruct (station_known_facts _ (Hst LootRef)) as (_ & Hloot & _).
  destruct (reward_exact (DungeonLevel (progress player))
              (Loot (createHero (factory player)))) as [Hr Hrb];
    [lia | exact Hloot |].
  unfold gold_bound, level_bound in *.
  unfold processPlayer, player_ok. rewrite Hsim.
  cbn [Victory GoldReward ExpReward]. rewrite Hr.
  destruct (h >? 0);
    cbn [progress factory Gold DungeonLevel Experience].
  - rewrite !add_exact by (unfold GoInt.int_min, GoInt.int_max; lia).
    repeat split; auto; lia.
  - unfold GoInt.quot.
    rewrite Z.quot_div_nonneg by lia.
    assert (Hhalf : 0 <= (10 + DungeonLevel (progress player) * 2)
                          * Loot (createHero (factory player)) / 2 <= 2 ^ 40)
      by (split; [apply Z.div_pos; lia | apply Z.div_le_upper_bound; lia]).
    rewrite wrap_exact by (unfold GoInt.int_min, GoInt.int_max; lia).
    rewrite add_exact by (unfold GoInt.int_min, GoInt.int_max; lia).
    repeat split; auto; lia.
Qed.

Lemma UpgradeStation_false (player player' : Player) (stationType : string) :
  UpgradeStation player stationType = (player', false) -> player' = player.
Proof.
  unfold UpgradeStation.
  destruct (getStationByType (factory player) stationType) as [r|];
    [|congruence].
  destruct (Gold (progress player) <? Cost (deref (factory player) r));
    [congruence | discriminate].
Qed.

Lemma UpgradeStation_ok (player : Player) (stationType : string) :
  player_ok player ->
  Gold (progress player) < gold_bound ->
  player_ok (fst (UpgradeStation player stationType)) /\
  DungeonLevel (progress (fst (UpgradeStation player stationType)))
    = DungeonLevel (progress player).
Proof.
  intros Hok Hg.
  destruct (UpgradeStation player stationType) as [player' ok] eqn:Hup.
  cbn [fst]. destruct ok.
  - destruct Hok as (Hgold & Hlevel & Hst).
    apply UpgradeStation_true in Hup as (r & _ & Hpay & Hf & Hp & _).
    destruct (station_known_facts _ (Hst r)) as (Hcost & _ & Hnext).
    unfold player_ok. rewrite Hf, Hp.
    cbn [Gold DungeonLevel Experience].
    unfold GoInt.sub. unfold gold_bound in *.
    rewrite wrap_exact by (unfold GoInt.int_min, GoInt.int_max; lia).
    repeat split; try lia.
    intros r'.
    assert (Hr : r' = r \/ r <> r')
      by (destruct r, r'; auto; right; discriminate).
    destruct Hr as [-> | Hne].
    + rewrite deref_store_same. apply Hnext. unfold gold_bound. lia.
    + rewrite deref_store_other by exact Hne. apply Hst.
  - apply UpgradeStation_false in Hup as ->. auto.
Qed.

Section Registry.

Variable Players : gmap string Player.

Hypothesis Players_ok :
  forall playerID player, Players !! playerID = Some player -> player_ok player.
Hypothesis Players_small : small Players.

Lemma run_ok (op : Op) (playerID : string) (player' : Player) :
  run op Players !! playerID = Some player' -> player_ok player'.
Proof.
  destruct op as [now id | id stationType |]; cbn [run].
  - unfold getOrCreatePlayer.
    destruct (Players !! id) as [player|] eqn:Hid.
    + destruct (decide (id = playerID)) as [-> | Hne].
      * rewrite lookup_insert_eq. intros [= <-].
        exact (Players_ok _ _ Hid).
      * rewrite lookup_insert_ne by exact Hne. apply Players_ok.
    + destruct (slice_to id 8) as [prefix|]; [|apply Players_ok].
      destruct (decide (id = playerID)) as [-> | Hne].
      * rewrite lookup_insert_eq. intros [= <-]. apply player_ok_created.
      * rewrite lookup_insert_ne by exact Hne. apply Players_ok.
  - destruct (Players !! id) as [player|] eqn:Hid; [|apply Players_ok].
    destruct (decide (id = playerID)) as [-> | Hne].
    + rewrite lookup_insert_eq. intros [= <-].
      apply UpgradeStation_ok.
      * exact (Players_ok _ _ Hid).
      * exact (proj1 (Players_small _ _ Hid)).
    + rewrite lookup_insert_ne by exact Hne. apply Players_ok.
  - rewrite lookup_fmap.
    destruct (Players !! playerID) as [player|] eqn:Hid; [|discriminate].
    cbn. intros [= <-]. apply processPlayer_ok.
    + exact (Players_ok _ _ Hid).
    + exact (proj1 (Players_small _ _ Hid)).
    + exact (proj2 (Players_small _ _ Hid)).
Qed.

Lemma run_level (op : Op) (playerID : string) (player player' : Player) :
  Players !! playerID = Some player ->
  run op Players !! playerID = Some player' ->
  DungeonLevel (progress player) <= DungeonLevel (progress player').
Proof.
  intros Hid.
  destruct op as [now id | id stationType |]; cbn [run].
  - unfold getOrCreatePlayer.
    destruct (decide (id = playerID)) as [-> | Hne].
    + rewrite Hid, lookup_insert_eq. intros [= <-]. cbn. lia.
    + destruct (Players !! id) as [other|].
      * rewrite lookup_insert_ne, Hid by exact Hne. intros [= <-]. lia.
      * destruct (slice_to id 8) as [prefix|].
        -- rewrite lookup_insert_ne, Hid by exact Hne. intros [= <-]. lia.
        -- rewrite Hid. intros [= <-]. lia.
  - destruct (decide (id = playerID)) as [-> | Hne].
    + rewrite Hid, lookup_insert_eq. intros [= <-].
      destruct (UpgradeStation_ok player stationType) as [_ ->].
      * exact (Players_ok _ _ Hid).
      * exact (proj1 (Players_small _ _ Hid)).
      * lia.
    + destruct (Players !! id) as [other|].
      * rewrite lookup_insert_ne, Hid by exact Hne. intros [= <-]. lia.
      * rewrite Hid. intros [= <-]. lia.
  - rewrite lookup_fmap, Hid. cbn. intros [= <-].
    apply processPlayer_ok.
    + exact (Players_ok _ _ Hid).
    + exact (proj1 (Players_small _ _ Hid)).
    + exact (proj2 (Players_small _ _ Hid)).
Qed.

End Registry.

Lemma reachable_small_ok (Players : gmap string Player) :
  reachable_small Players ->
  forall playerID player, Players !! playerID = Some player -> player_ok player.
Proof.
  induction 1 as [| op Players _ IH Hsmall]; intros playerID player.
  - rewrite lookup_empty. discriminate.
  - apply (run_ok Players IH Hsmall).
Qed.

(** One operation at a time (every upgrade run to its return before the
    next operation starts, which is what a lock around [UpgradeStation]
    would enforce) and inside the bounds, the gold of every player state
    that is reached is not negative and no operation lowers a dungeon
    level. *)
Lemma serial_gold_and_level (Players : gmap string Player)
    (playerID : string) (player : Player) :
  reachable_small Players ->
  Players !! playerID = Some player ->
  0 <= Gold (progress player) /\
  (small Players ->
   forall op player',
     run op Players !! playerID = Some player' ->
     0 <= Gold (progress player') /\
     DungeonLevel (progress player) <= DungeonLevel (progress player')).
Proof.
  intros Hreach Hid.
  pose proof (reachable_small_ok Players Hreach) as Hok.
  split; [exact (proj1 (Hok _ _ Hid))|].
  intros Hsmall op player' Hrun. split.
  - exact (proj1 (run_ok Players Hok Hsmall op playerID player' Hrun)).
  - exact (run_level Players Hok Hsmall op playerID player player' Hid Hrun).
Qed.

(** C4, the execution that breaks the invariant: the player "player-1" is
    created and left to the game loop for 14 ticks, which the mutex of the
    game state serialises; the gold is then 103.  Two requests to upgrade
    "hp" are served at once, without a lock: both read the gold before
    either writes it, both pay, both return success, and the gold of the
    player is negative. *)
Theorem gold_negative_after_racing_upgrades :
  reachable (idle_registry 103) /\
  idle_registry 103 !! "player-1" = Some (idle_at 103) /\
  0 <= Gold (progress (idle_at 103)) /\
  exists s,
    steps "hp" {| shared := idle_at 103; first := AtLookup; second := AtLookup |} s /\
    first s = Returned true /\
    second s = Returned true /\
    Gold (progress (shared s)) = -147 /\
    DungeonLevel (progress (shared s)) = DungeonLevel (progress (idle_at 103)).
Proof.
  split; [|split; [|split]].
  - change 103 with (12 + 7 * 13). apply idle_reachable.
    + lia.
    + unfold GoInt.int_max. lia.
  - apply lookup_singleton_eq.
  - cbn. lia.
  - destruct (schedule "hp" both_check_first
                {| shared := idle_at 103; first := AtLookup; second := AtLookup |})
      as [s|] eqn:Hs; [|vm_compute in Hs; discriminate].
    exists s. split; [apply (schedule_steps _ _ _ _ Hs)|].
    vm_compute in Hs. injection Hs as <-. repeat split.
Qed.

(** * Further properties of the code *)

(** ** The course of a battle *)

Lemma strikes_needed_one (e d : Z) :
  1 <= d -> 0 < e -> e - d <= 0 -> strikes_needed e d = 1.
Proof.
  intros Hd He Hkill. unfold strikes_needed.
  symmetry. apply (Z.div_unique _ _ 1 (e - 1)); lia.
Qed.

Lemma strikes_needed_next (e d : Z) :
  1 <= d -> strikes_needed (e - d) d = strikes_needed e d - 1.
Proof.
  intros Hd. unfold strikes_needed.
  replace (e - d + d - 1) with (e + d - 1 + (-1) * d) by lia.
  rewrite Z.div_add by lia. lia.
Qed.

Lemma strikes_needed_two (e d : Z) :
  1 <= d -> 0 < e - d -> 2 <= strikes_needed e d.
Proof.
  intros Hd He. unfold strikes_needed.
  apply Z.div_le_lower_bound; lia.
Qed.

Lemma counter_exact (enemyDamage h : Z) :
  1 <= enemyDamage <= GoInt.int_max -> 0 < h <= GoInt.int_max ->
  GoInt.sub h enemyDamage = h - enemyDamage.
Proof. apply strike_exact. Qed.

(** The loop decided in advance: the hero is alive at the exit exactly
    when the hit points outlast the counter-strikes taken before the last
    strike. *)
Lemma battleLoop_alive (hd ed : Z) (fuel : nat) :
  1 <= hd <= GoInt.int_max -> 1 <= ed <= GoInt.int_max ->
  forall h e h' e',
    0 < h <= GoInt.int_max -> 0 < e <= GoInt.int_max ->
    battleLoop fuel hd ed h e = Some (h', e') ->
    (0 < h' <-> (strikes_needed e hd - 1) * ed < h).
Proof.
  intros Hhd Hed.
  induction fuel as [|fuel IH]; intros h e h' e' Hh He; cbn [battleLoop];
    destruct (Z.gtb_spec h 0); destruct (Z.gtb_spec e 0); cbn [andb];
    try lia; try discriminate.
  rewrite strike_exact by lia.
  destruct (Z.leb_spec (e - hd) 0) as [Hkill | Hlive].
  - intros [= <- <-]. rewrite strikes_needed_one by lia. lia.
  - rewrite counter_exact by lia.
    pose proof (strikes_needed_two e hd (proj1 Hhd) Hlive) as Htwo.
    destruct (Z.le_gt_cases (h - ed) 0) as [Hdead | Halive].
    + destruct fuel as [|fuel']; cbn [battleLoop];
        destruct (Z.gtb_spec (h - ed) 0); try lia; cbn [andb];
        intros [= <- <-]; (split; [lia | intros Hlt; nia]).
    + intros Hrec.
      assert (Hh1 : 0 < h - ed <= GoInt.int_max)
        by (unfold GoInt.int_max in *; lia).
      assert (He1 : 0 < e - hd <= GoInt.int_max)
        by (unfold GoInt.int_max in *; lia).
      pose proof (IH _ _ _ _ Hh1 He1 Hrec) as Hiff.
      rewrite strikes_needed_next in Hiff by lia.
      rewrite Hiff. split; intros; nia.
Qed.

Lemma simulateBattle_alive (hero : Hero) (dungeonLevel : Z) :
  0 < HP hero <= GoInt.int_max ->
  0 < enemyHP_at dungeonLevel ->
  (Victory (simulateBattle hero dungeonLevel) = true <->
   (strikes_needed (enemyHP_at dungeonLevel) (heroDamage_of hero dungeonLevel) - 1)
     * enemyDamage_of hero dungeonLevel < HP hero).
Proof.
  intros Hhp He.
  destruct (simulateBattle_loop hero dungeonLevel) as (h & e & Hloop & ->).
  cbn [Victory].
  apply battleLoop_alive in Hloop.
  - fold (heroDamage_of hero dungeonLevel) (enemyDamage_of hero dungeonLevel) in Hloop.
    rewrite <- Hloop. destruct (Z.gtb_spec h 0); split; intros; try lia;
      try discriminate; reflexivity.
  - apply heroDamage_bounds.
  - apply max_1_bounds, wrap_in_range.
  - exact Hhp.
  - split; [exact He | apply wrap_in_range].
Qed.

(** X1 (battle outcome in closed form): a hero with positive hit points
    wins against a living enemy exactly when the hit points exceed the
    damage of the counter-strikes, one fewer than the strikes needed,
    [ceil (enemyHP / heroDamage) - 1] times [enemyDamage]. *)
Theorem victory_closed_form (hero : Hero) (dungeonLevel : Z) :
  0 < HP hero <= GoInt.int_max ->
  0 < enemyHP_at dungeonLevel ->
  (Victory (simulateBattle hero dungeonLevel) = true <->
   (strikes_needed (enemyHP_at dungeonLevel) (heroDamage_of hero dungeonLevel) - 1)
     * enemyDamage_of hero dungeonLevel < HP hero).
Proof.
  intros Hhp He. apply simulateBattle_alive; [exact Hhp | exact He].
Qed.

Lemma victory_closed_form_witness :
  Victory (simulateBattle {| HP := 100; Armor := 10; Attack := 20; Loot := 1 |} 1) = true <->
  (strikes_needed (enemyHP_at 1)
     (heroDamage_of {| HP := 100; Armor := 10; Attack := 20; Loot := 1 |} 1) - 1)
    * enemyDamage_of {| HP := 100; Armor := 10; Attack := 20; Loot := 1 |} 1
  < HP {| HP := 100; Armor := 10; Attack := 20; Loot := 1 |}.
Proof.
  apply (victory_closed_form {| HP := 100; Armor := 10; Attack := 20; Loot := 1 |} 1).
  - cbn. unfold GoInt.int_max. lia.
  - vm_compute. reflexivity.
Defined.

(** A hero without hit points loses without an exchange, at every level. *)
Lemma battle_lost_without_hit_points (hero : Hero) (dungeonLevel : Z) :
  HP hero <= 0 -> Victory (simulateBattle hero dungeonLevel) = false.
Proof.
  intros Hhp.
  destruct (simulateBattle_loop hero dungeonLevel) as (h & e & Hloop & ->).
  cbn [Victory].
  destruct (battleFuel dungeonLevel); cbn [battleLoop] in Hloop;
    destruct (Z.gtb_spec (HP hero) 0); try lia; cbn [andb] in Hloop;
    injection Hloop as <- <-; destruct (Z.gtb_spec (HP hero) 0); lia || reflexivity.
Qed.

(** X2 (more hit points never hurt): if a hero wins at a level, every
    hero with the same armor and attack and at least as many hit points
    wins at that level too. *)
Theorem victory_monotone_in_HP (hero stronger : Hero) (dungeonLevel : Z) :
  Armor stronger = Armor hero ->
  Attack stronger = Attack hero ->
  HP hero <= HP stronger <= GoInt.int_max ->
  Victory (simulateBattle hero dungeonLevel) = true ->
  Victory (simulateBattle stronger dungeonLevel) = true.
Proof.
  intros Harmor Hattack Hhp Hwin.
  destruct (Z.le_gt_cases (HP hero) 0) as [Hdead | Halive].
  { rewrite battle_lost_without_hit_points in Hwin by exact Hdead. discriminate. }
  destruct (Z.le_gt_cases (enemyHP_at dungeonLevel) 0) as [Hnone | Henemy].
  - destruct (simulateBattle_loop stronger dungeonLevel) as (h & e & Hloop & ->).
    cbn [Victory].
    destruct (battleFuel dungeonLevel); cbn [battleLoop] in Hloop;
      destruct (Z.gtb_spec (enemyHP_at dungeonLevel) 0); try lia;
      rewrite andb_false_r in Hloop; injection Hloop as <- <-;
      destruct (Z.gtb_spec (HP stronger) 0); lia || reflexivity.
  - apply simulateBattle_alive in Hwin; [|lia | exact Henemy].
    apply simulateBattle_alive; [lia | exact Henemy |].
    unfold heroDamage_of, enemyDamage_of in *.
    rewrite Harmor, Hattack. lia.
Qed.

Lemma victory_monotone_in_HP_witness :
  Victory (simulateBattle {| HP := 120; Armor := 10; Attack := 20; Loot := 1 |} 1) = true.
Proof.
  apply (victory_monotone_in_HP {| HP := 100; Armor := 10; Attack := 20; Loot := 1 |}
                                {| HP := 120; Armor := 10; Attack := 20; Loot := 1 |} 1).
  - reflexivity.
  - reflexivity.
  - cbn. unfold GoInt.int_max. lia.
  - vm_compute. reflexivity.
Defined.

(** ** Heroes and upgrades *)

Lemma hero_stats_table : forallb hero_stats_ok (seq 0 97) = true.
Proof. vm_compute. reflexivity. Qed.

Lemma hero_stat_facts (base : Z) (s : Station) :
  base = 100 \/ base = 10 \/ base = 20 \/ base = 1 ->
  station_known s ->
  nominal_stat base s - 1 <= hero_stat base s <= nominal_stat base s /\
  base <= hero_stat base s /\
  hero_stat base s <= hero_stat base (upgraded s).
Proof.
  intros Hbase (k & Hk & ->).
  pose proof hero_stats_table as T. rewrite forallb_forall in T.
  assert (Hin : In k (seq 0 97)) by (apply in_seq; lia).
  specialize (T k Hin). unfold hero_stats_ok in T.
  apply andb_prop in T as [T T1]. apply andb_prop in T as [T T20].
  apply andb_prop in T as [T100 T10].
  assert (Hb : hero_stat_ok base k = true)
    by (destruct Hbase as [-> | [-> | [-> | ->]]]; assumption).
  unfold hero_stat_ok in Hb.
  apply andb_prop in Hb as [Hb Hup]. apply andb_prop in Hb as [Hb Hmin].
  apply andb_prop in Hb as [Hlo Hhi].
  apply Z.leb_le in Hup, Hmin, Hlo, Hhi. lia.
Qed.

Lemma createHero_stats (f : Factory) :
  createHero f =
    {| HP := hero_stat 100 (HPStation f);
       Armor := hero_stat 10 (ArmorStation f);
       Attack := hero_stat 20 (AttackStation f);
       Loot := hero_stat 1 (LootStation f) |}.
Proof. reflexivity. Qed.

(** X3 (statistics follow the levels up to one point): for a player whose
    stations are in one of the states an upgrade sequence reaches, every
    statistic of the hero is the value the level of its station stands
    for, [floor (base * (level + 4) / 5)], or one less (the multiplier is
    a sum of rounded 0.2s), and never below the base value. *)
Theorem hero_stats_by_level (player : Player) :
  player_ok player ->
  let f := factory player in
  let hero := createHero f in
  (nominal_stat 100 (HPStation f) - 1 <= HP hero <= nominal_stat 100 (HPStation f)) /\
  (nominal_stat 10 (ArmorStation f) - 1 <= Armor hero <= nominal_stat 10 (ArmorStation f)) /\
  (nominal_stat 20 (AttackStation f) - 1 <= Attack hero <= nominal_stat 20 (AttackStation f)) /\
  (nominal_stat 1 (LootStation f) - 1 <= Loot hero <= nominal_stat 1 (LootStation f)) /\
  100 <= HP hero /\ 10 <= Armor hero /\ 20 <= Attack hero /\ 1 <= Loot hero.
Proof.
  intros (_ & _ & Hst). cbv zeta. rewrite createHero_stats. cbn [HP Armor Attack Loot].
  pose proof (hero_stat_facts 100 _ (or_introl eq_refl) (Hst HPRef)) as H1.
  pose proof (hero_stat_facts 10 _ (or_intror (or_introl eq_refl)) (Hst ArmorRef)) as H2.
  pose proof (hero_stat_facts 20 _ (or_intror (or_intror (or_introl eq_refl)))
                (Hst AttackRef)) as H3.
  pose proof (hero_stat_facts 1 _ (or_intror (or_intror (or_intror eq_refl)))
                (Hst LootRef)) as H4.
  cbn [deref] in *. lia.
Qed.

Lemma player_ok_rich : player_ok rich.
Proof.
  unfold player_ok. cbn. repeat split; try lia.
  intros r. destruct r; exact station_known_default.
Qed.

Lemma player_ok_upgrade_n_4 : player_ok (upgrade_n 4 "hp" rich).
Proof.
  unfold player_ok. split; [vm_compute; discriminate|].
  split; [vm_compute; discriminate|].
  intros r. destruct r; [exists 4%nat | exists 0%nat | exists 0%nat | exists 0%nat];
    (split; [lia | vm_compute; reflexivity]).
Qed.

Lemma hero_stats_by_level_witness :
  let f := factory (upgrade_n 4 "hp" rich) in
  let hero := createHero f in
  (nominal_stat 100 (HPStation f) - 1 <= HP hero <= nominal_stat 100 (HPStation f)) /\
  (nominal_stat 10 (ArmorStation f) - 1 <= Armor hero <= nominal_stat 10 (ArmorStation f)) /\
  (nominal_stat 20 (AttackStation f) - 1 <= Attack hero <= nominal_stat 20 (AttackStation f)) /\
  (nominal_stat 1 (LootStation f) - 1 <= Loot hero <= nominal_stat 1 (LootStation f)) /\
  100 <= HP hero /\ 10 <= Armor hero /\ 20 <= Attack hero /\ 1 <= Loot hero.
Proof.
  apply (hero_stats_by_level (upgrade_n 4 "hp" rich)).
  exact player_ok_upgrade_n_4.
Defined.

(** X4 (an upgrade never weakens the hero): after a successful upgrade of
    such a player no statistic of the hero is lower than before. *)
Theorem upgrade_never_lowers_hero (player player' : Player) (stationType : string) :
  player_ok player ->
  UpgradeStation player stationType = (player', true) ->
  HP (createHero (factory player)) <= HP (createHero (factory player')) /\
  Armor (createHero (factory player)) <= Armor (createHero (factory player')) /\
  Attack (createHero (factory player)) <= Attack (createHero (factory player')) /\
  Loot (createHero (factory player)) <= Loot (createHero (factory player')).
Proof.
  intros (_ & _ & Hst) Hup.
  apply UpgradeStation_true in Hup as (r & _ & _ & Hf & _).
  rewrite !createHero_stats, Hf. cbn [HP Armor Attack Loot].
  pose proof (hero_stat_facts 100 _ (or_introl eq_refl) (Hst HPRef)) as H1.
  pose proof (hero_stat_facts 10 _ (or_intror (or_introl eq_refl)) (Hst ArmorRef)) as H2.
  pose proof (hero_stat_facts 20 _ (or_intror (or_intror (or_introl eq_refl)))
                (Hst AttackRef)) as H3.
  pose proof (hero_stat_facts 1 _ (or_intror (or_intror (or_intror eq_refl)))
                (Hst LootRef)) as H4.
  cbn [deref] in *.
  destruct r; cbn [store deref HPStation ArmorStation LootStation AttackStation]; lia.
Qed.

Lemma upgrade_never_lowers_hero_witness :
  HP (createHero (factory rich)) <= HP (createHero (factory (upgrade_n 1 "hp" rich))) /\
  Armor (createHero (factory rich)) <= Armor (createHero (factory (upgrade_n 1 "hp" rich))) /\
  Attack (createHero (factory rich)) <= Attack (createHero (factory (upgrade_n 1 "hp" rich))) /\
  Loot (createHero (factory rich)) <= Loot (createHero (factory (upgrade_n 1 "hp" rich))).
Proof.
  apply (upgrade_never_lowers_hero rich (upgrade_n 1 "hp" rich) "hp").
  - exact player_ok_rich.
  - vm_compute. reflexivity.
Defined.

(** X5 (a tick always pays): for a player inside the bounds of the
    registry invariant one round of the game loop adds at least 6 gold,
    won or lost, at most [20 * (10 + 2 * level)], and moves the dungeon
    level by 0 (defeat) or 1 (victory). *)
Theorem tick_income (player : Player) :
  player_ok player ->
  Gold (progress player) < gold_bound ->
  DungeonLevel (progress player) < level_bound ->
  let level := DungeonLevel (progress player) in
  let after := progress (processPlayer player) in
  Gold (progress player) + 6 <= Gold after <=
    Gold (progress player) + 20 * (10 + 2 * level) /\
  (DungeonLevel after = level \/ DungeonLevel after = level + 1).
Proof.
  intros (Hgold & Hlevel & Hst) Hg Hl. cbv zeta.
  destruct (simulateBattle_loop (createHero (factory player))
              (DungeonLevel (progress player))) as (h & e & _ & Hsim).
  destruct (station_known_facts _ (Hst LootRef)) as (_ & Hloot & _).
  destruct (reward_exact (DungeonLevel (progress player))
              (Loot (createHero (factory player)))) as [Hr Hrb];
    [lia | exact Hloot |].
  change (Float64.to_int
            (Float64.mul (Float64.of_int 1) (Multiplier (deref (factory player) LootRef))))
    with (Loot (createHero (factory player))) in Hloot.
  unfold gold_bound, level_bound in *.
  unfold processPlayer. rewrite Hsim.
  cbn [Victory GoldReward ExpReward]. rewrite Hr.
  set (level := DungeonLevel (progress player)) in *.
  set (loot := Loot (createHero (factory player))) in *.
  assert (Hreward : 12 <= (10 + level * 2) * loot <= 20 * (10 + 2 * level)) by nia.
  destruct (h >? 0);
    cbn [progress factory Gold DungeonLevel Experience].
  - rewrite !add_exact by (unfold GoInt.int_min, GoInt.int_max; lia). lia.
  - unfold GoInt.quot.
    rewrite Z.quot_div_nonneg by lia.
    assert (Hhalf : 6 <= (10 + level * 2) * loot / 2 <= (10 + level * 2) * loot)
      by (split; [apply Z.div_le_lower_bound; lia
                 | apply Z.div_le_upper_bound; lia]).
    rewrite wrap_exact by (unfold GoInt.int_min, GoInt.int_max; lia).
    rewrite add_exact by (unfold GoInt.int_min, GoInt.int_max; lia).
    lia.
Qed.

Lemma tick_income_witness :
  let level := DungeonLevel (progress rich) in
  let after := progress (processPlayer rich) in
  Gold (progress rich) + 6 <= Gold after <=
    Gold (progress rich) + 20 * (10 + 2 * level) /\
  (DungeonLevel after = level \/ DungeonLevel after = level + 1).
Proof.
  apply (tick_income rich).
  - exact player_ok_rich.
  - vm_compute. reflexivity.
  - vm_compute. reflexivity.
Defined.

Lemma UpgradeStation_pays (player : Player) (stationType : string) (r : StationRef) :
  getStationByType (factory player) stationType = Some r ->
  Cost (deref (factory player) r) <= Gold (progress player) ->
  UpgradeStation player stationType =
    ({| ID := ID player; Name := Name player;
        factory := store (factory player) r (upgraded (deref (factory player) r));
        progress :=
          {| DungeonLevel := DungeonLevel (progress player);
             Gold := GoInt.sub (Gold (progress player))
                               (Cost (deref (factory player) r));
             Experience := Experience (progress player) |};
        LastSeen := LastSeen player |}, true).
Proof.
  intros Hr Hpay. unfold UpgradeStation. rewrite Hr.
  destruct (Z.ltb_spec (Gold (progress player)) (Cost (deref (factory player) r)));
    [lia | reflexivity].
Qed.

Lemma store_store (f : Factory) (r1 r2 : StationRef) (s1 s2 : Station) :
  r1 <> r2 -> store (store f r1 s1) r2 s2 = store (store f r2 s2) r1 s1.
Proof. destruct r1, r2; intros H; try reflexivity; congruence. Qed.

(** X6 (upgrades of two stations commute): when a player whose costs are
    not negative pays for an upgrade of one station and then for an
    upgrade of another one, the two requests succeed in the other order as
    well and lead to the same player. *)
Theorem upgrades_commute (player p1 p12 : Player) (type1 type2 : string)
    (r1 r2 : StationRef) :
  getStationByType (factory player) type1 = Some r1 ->
  getStationByType (factory player) type2 = Some r2 ->
  r1 <> r2 ->
  0 <= Cost (deref (factory player) r1) ->
  0 <= Cost (deref (factory player) r2) ->
  Gold (progress player) <= GoInt.int_max ->
  UpgradeStation player type1 = (p1, true) ->
  UpgradeStation p1 type2 = (p12, true) ->
  exists p2,
    UpgradeStation player type2 = (p2, true) /\
    UpgradeStation p2 type1 = (p12, true).
Proof.
  intros Hr1 Hr2 Hne Hc1 Hc2 Hmax Hup1 Hup2.
  apply UpgradeStation_true in Hup1
    as (r1' & Hr1' & Hpay1 & Hf1 & Hp1 & Hid1 & Hname1 & Hseen1).
  assert (r1' = r1) as -> by congruence.
  apply UpgradeStation_true in Hup2
    as (r2' & Hr2' & Hpay2 & Hf2 & Hp2 & Hid2 & Hname2 & Hseen2).
  rewrite (getStationByType_factory (factory p1) (factory player)) in Hr2'.
  assert (r2' = r2) as -> by congruence.
  rewrite Hf1, Hp1 in Hpay2. cbn [Gold] in Hpay2.
  rewrite deref_store_other in Hpay2 by exact Hne.
  assert (Hsub1 : GoInt.sub (Gold (progress player)) (Cost (deref (factory player) r1))
                  = Gold (progress player) - Cost (deref (factory player) r1))
    by (apply wrap_exact; unfold GoInt.int_min, GoInt.int_max in *; lia).
  rewrite Hsub1 in Hpay2.
  rewrite (UpgradeStation_pays player type2 r2 Hr2) by lia.
  eexists. split; [reflexivity|].
  rewrite (UpgradeStation_pays _ type1 r1).
  2: exact Hr1.
  2: { cbn [factory progress Gold]. rewrite deref_store_other by congruence.
       unfold GoInt.sub.
       rewrite wrap_exact by (unfold GoInt.int_min, GoInt.int_max in *; lia).
       lia. }
  f_equal. destruct p12 as [id12 name12 f12 pr12 seen12].
  cbn [factory progress ID Name LastSeen Gold DungeonLevel Experience] in *.
  subst f12 pr12 id12 name12 seen12.
  rewrite Hf1, Hp1, Hid1, Hname1, Hseen1.
  cbn [Gold DungeonLevel Experience].
  rewrite !deref_store_other by congruence.
  rewrite (store_store _ r2 r1) by congruence.
  unfold GoInt.sub.
  rewrite (wrap_exact (Gold (progress player) - Cost (deref (factory player) r2)))
    by (unfold GoInt.int_min, GoInt.int_max in *; lia).
  rewrite (wrap_exact (Gold (progress player) - Cost (deref (factory player) r1)))
    by (unfold GoInt.int_min, GoInt.int_max in *; lia).
  do 3 f_equal. lia.
Qed.

Lemma upgrades_commute_witness :
  exists p2,
    UpgradeStation rich "armor" = (p2, true) /\
    UpgradeStation p2 "hp" = (upgrade_n 1 "armor" (upgrade_n 1 "hp" rich), true).
Proof.
  apply (upgrades_commute rich (upgrade_n 1 "hp" rich)
           (upgrade_n 1 "armor" (upgrade_n 1 "hp" rich)) "hp" "armor" HPRef ArmorRef).
  - reflexivity.
  - reflexivity.
  - discriminate.
  - vm_compute. discriminate.
  - vm_compute. discriminate.
  - vm_compute. discriminate.
  - vm_compute. reflexivity.
  - vm_compute. reflexivity.
Defined.

(** ** The registry, further *)

(** X7 (when the registry panics): [getOrCreatePlayer] panics exactly on
    the identifiers that are not registered and are shorter than eight
    bytes; every other call returns. *)
Theorem getOrCreatePlayer_panics_iff (now : Z) (playerID : string)
    (Players : gmap string Player) :
  getOrCreatePlayer now playerID Players = Panics <->
  Players !! playerID = None /\ (String.length playerID < 8)%nat.
Proof.
  split.
  - unfold getOrCreatePlayer, slice_to.
    destruct (Players !! playerID); [discriminate|].
    destruct (Nat.leb_spec 8 (String.length playerID)); [discriminate|].
    auto.
  - intros [Hnone Hlen]. apply getOrCreatePlayer_short; assumption.
Qed.

(** X8 (what a returning call does): the returned player is the one the
    registry holds under the identifier afterwards, stamped with the time
    of the call; no other entry changes; a player who was registered keeps
    identifier, name, factory and progress, and a new one starts from the
    default factory and progress. *)
Theorem getOrCreatePlayer_returns (now : Z) (playerID : string)
    (Players Players' : gmap string Player) (player : Player) :
  getOrCreatePlayer now playerID Players = Returns (Players', player) ->
  Players' !! playerID = Some player /\
  LastSeen player = now /\
  (forall other, other <> playerID -> Players' !! other = Players !! other) /\
  (forall old, Players !! playerID = Some old ->
     ID player = ID old /\ Name player = Name old /\
     factory player = factory old /\ progress player = progress old) /\
  (Players !! playerID = None ->
     ID player = playerID /\ factory player = defaultFactory /\
     progress player = defaultProgress).
Proof.
  unfold getOrCreatePlayer.
  destruct (Players !! playerID) as [old|] eqn:Hold.
  - intros [= <- <-]. rewrite lookup_insert_eq. cbn.
    split; [reflexivity|]. split; [reflexivity|]. split.
    + intros other Hne. apply lookup_insert_ne. congruence.
    + split; [|discriminate]. intros old' [= <-]. auto.
  - destruct (slice_to playerID 8) as [prefix|]; [|discriminate].
    intros [= <- <-]. rewrite lookup_insert_eq. cbn.
    repeat split; try discriminate.
    intros other Hne. apply lookup_insert_ne. congruence.
Qed.

Lemma getOrCreatePlayer_returns_witness :
  novice_registry !! "player-1" = Some novice /\
  LastSeen novice = 0 /\
  (forall other, other <> "player-1" ->
     novice_registry !! other = (∅ : gmap string Player) !! other) /\
  (forall old, (∅ : gmap string Player) !! "player-1" = Some old ->
     ID novice = ID old /\ Name novice = Name old /\
     factory novice = factory old /\ progress novice = progress old) /\
  ((∅ : gmap string Player) !! "player-1" = None ->
     ID novice = "player-1" /\ factory novice = defaultFactory /\
     progress novice = defaultProgress).
Proof.
  apply (getOrCreatePlayer_returns 0 "player-1" ∅ novice_registry novice).
  unfold getOrCreatePlayer. rewrite lookup_empty.
  change (slice_to "player-1" 8) with (@Returns string "player-1").
  cbn iota beta. rewrite insert_empty. reflexivity.
Defined.

Lemma UpgradeStation_names (player : Player) (stationType : string) :
  ID (fst (UpgradeStation player stationType)) = ID player /\
  Name (fst (UpgradeStation player stationType)) = Name player.
Proof.
  destruct (UpgradeStation player stationType) as [player' ok] eqn:Hup.
  destruct ok.
  - apply UpgradeStation_true in Hup as (_ & _ & _ & _ & _ & Hid & Hname & _).
    auto.
  - apply UpgradeStation_false in Hup as ->. auto.
Qed.

(** X9 (keys, identifiers and names): in every registry the operations
    reach, a player is stored under its own identifier, the identifier has
    at least eight bytes, and the name is "Player " followed by the first
    eight bytes of the identifier. *)
Theorem reachable_registry_names (Players : gmap string Player)
    (playerID : string) (player : Player) :
  reachable Players ->
  Players !! playerID = Some player ->
  ID player = playerID /\
  (8 <= String.length playerID)%nat /\
  Name player = ("Player " ++ String.substring 0 8 playerID)%string.
Proof.
  intros Hreach. revert playerID player.
  induction Hreach as [| op Players _ IH]; intros playerID player.
  - rewrite lookup_empty. discriminate.
  - destruct op as [now id | id stationType |]; cbn [run].
    + unfold getOrCreatePlayer, slice_to.
      destruct (Players !! id) as [old|] eqn:Hold.
      * destruct (decide (id = playerID)) as [-> | Hne].
        -- rewrite lookup_insert_eq. intros [= <-]. cbn. exact (IH _ _ Hold).
        -- rewrite lookup_insert_ne by exact Hne. apply IH.
      * destruct (Nat.leb_spec 8 (String.length id)) as [Hlen | Hlen];
          [|apply IH].
        destruct (decide (id = playerID)) as [-> | Hne].
        -- rewrite lookup_insert_eq. intros [= <-]. cbn. auto.
        -- rewrite lookup_insert_ne by exact Hne. apply IH.
    + destruct (Players !! id) as [old|] eqn:Hold; [|apply IH].
      destruct (decide (id = playerID)) as [-> | Hne].
      * rewrite lookup_insert_eq. intros [= <-].
        destruct (UpgradeStation_names old stationType) as [-> ->].
        exact (IH _ _ Hold).
      * rewrite lookup_insert_ne by exact Hne. apply IH.
    + rewrite lookup_fmap.
      destruct (Players !! playerID) as [old|] eqn:Hold; [|discriminate].
      cbn. intros [= <-]. exact (IH _ _ Hold).
Qed.

Lemma idle_12_reachable : reachable (idle_registry 12).
Proof.
  rewrite <- first_tick. do 2 apply reachable_run. apply reachable_empty.
Qed.

Lemma reachable_registry_names_witness :
  ID (idle_at 12) = "player-1" /\
  (8 <= String.length "player-1")%nat /\
  Name (idle_at 12) = ("Player " ++ String.substring 0 8 "player-1")%string.
Proof.
  apply (reachable_registry_names (idle_registry 12) "player-1" (idle_at 12)).
  - exact idle_12_reachable.
  - apply lookup_singleton_eq.
Defined.

(** X10 (players are never dropped): no operation removes a player from
    the registry; a tick and an upgrade keep the set of registered
    identifiers, and [getOrCreatePlayer] adds at most the identifier it
    was called with. *)
Theorem run_keeps_players (op : Op) (Players : gmap string Player) :
  dom Players ⊆ dom (run op Players) /\
  match op with
  | GetOrCreate _ playerID => dom (run op Players) ⊆ {[ playerID ]} ∪ dom Players
  | Upgrade _ _ | Tick => dom (run op Players) = dom Players
  end.
Proof.
  destruct op as [now id | id stationType |]; cbn [run].
  - unfold getOrCreatePlayer.
    destruct (Players !! id) as [old|] eqn:Hold.
    + rewrite dom_insert_L. split; set_solver.
    + destruct (slice_to id 8) as [prefix|].
      * rewrite dom_insert_L. split; set_solver.
      * split; set_solver.
  - destruct (Players !! id) as [old|] eqn:Hold; [|split; reflexivity].
    rewrite dom_insert_lookup_L by eauto. split; reflexivity.
  - rewrite dom_fmap_L. split; reflexivity.
Qed.

(** ** Generated identifiers *)

Lemma formatBits_longer (b : Z) (fuel : nat) :
  forall u a, (String.length a <= String.length (formatBits fuel u b a))%nat.
Proof.
  induction fuel as [|fuel IH]; intros u a; cbn [formatBits]; [lia|].
  destruct (u >=? b).
  - specialize (IH (u / b) (String (digit (u mod b)) a)). cbn in IH. lia.
  - cbn. lia.
Qed.

Lemma formatBits_length (b : Z) (fuel : nat) :
  2 <= b ->
  forall u a k,
    b ^ Z.of_nat k <= u -> (k < fuel)%nat ->
    (S k + String.length a <= String.length (formatBits fuel u b a))%nat.
Proof.
  intros Hb. induction fuel as [|fuel IH]; intros u a k Hu Hk; [lia|].
  cbn [formatBits]. destruct (Z.geb_spec u b) as [Hge | Hlt].
  - destruct k as [|k].
    + pose proof (formatBits_longer b fuel (u / b) (String (digit (u mod b)) a)) as H.
      cbn in H. lia.
    + assert (Hdiv : b ^ Z.of_nat k <= u / b).
      { apply Z.div_le_lower_bound; [lia|].
        rewrite Nat2Z.inj_succ, Z.pow_succ_r in Hu by lia. exact Hu. }
      specialize (IH (u / b) (String (digit (u mod b)) a) k Hdiv). cbn in IH. lia.
  - destruct k as [|k]; [cbn; lia|].
    rewrite Nat2Z.inj_succ, Z.pow_succ_r in Hu by lia.
    assert (0 < b ^ Z.of_nat k) by (apply Z.pow_pos_nonneg; lia).
    nia.
Qed.

Lemma generatePlayerID_length (nanos : Z) :
  36 ^ 7 <= nanos -> (8 <= String.length (generatePlayerID nanos))%nat.
Proof.
  intros H. unfold generatePlayerID, FormatInt.
  destruct (Z.ltb_spec nanos 0) as [Hneg | _]; [lia|].
  pose proof (formatBits_length 36 64 ltac:(lia) nanos EmptyString 7 H ltac:(lia)) as L.
  cbn [String.length] in L. lia.
Qed.

Lemma getOrCreatePlayer_long (now : Z) (playerID : string)
    (Players : gmap string Player) :
  (8 <= String.length playerID)%nat ->
  exists Players' player,
    getOrCreatePlayer now playerID Players = Returns (Players', player) /\
    Players' !! playerID = Some player.
Proof.
  intros Hlen. unfold getOrCreatePlayer, slice_to.
  destruct (Players !! playerID) as [old|].
  - do 2 eexists. split; [reflexivity | apply lookup_insert_eq].
  - apply Nat.leb_le in Hlen. rewrite Hlen.
    do 2 eexists. split; [reflexivity | apply lookup_insert_eq].
Qed.

(** X11 (generated identifiers are long enough): when a connection is
    opened without a [playerID] and the clock reads at least [36 ^ 7]
    nanoseconds (79 seconds past the epoch), the generated identifier has
    at least eight bytes, so the open does not panic: the connection is
    entered under the generated identifier and the player is registered. *)
Theorem generated_id_accepted (nanos now : Z) (conn : Conn)
    (query : gmap string string) (gs : GameServer) :
  query_get query "playerID" = EmptyString ->
  36 ^ 7 <= nanos ->
  exists gs',
    handleWebSocket_open nanos now conn query gs = Returns gs' /\
    clients gs' !! conn = Some (generatePlayerID nanos) /\
    is_Some (gameState gs' !! generatePlayerID nanos) /\
    (8 <= String.length (generatePlayerID nanos))%nat.
Proof.
  intros Hq Hn. unfold handleWebSocket_open. rewrite Hq. cbn [String.eqb].
  pose proof (generatePlayerID_length nanos Hn) as Hlen.
  destruct (getOrCreatePlayer_long now (generatePlayerID nanos) (gameState gs) Hlen)
    as (Players' & player & -> & Hstored).
  eexists. split; [reflexivity|]. cbn [clients gameState].
  rewrite lookup_insert_eq. eauto.
Qed.

Lemma generated_id_accepted_witness :
  exists gs',
    handleWebSocket_open 1700000000000000000 1700000000000000001 1 ∅
      {| gameState := ∅; clients := ∅ |} = Returns gs' /\
    clients gs' !! 1%positive = Some (generatePlayerID 1700000000000000000) /\
    is_Some (gameState gs' !! generatePlayerID 1700000000000000000) /\
    (8 <= String.length (generatePlayerID 1700000000000000000))%nat.
Proof.
  apply (generated_id_accepted 1700000000000000000 1700000000000000001 1 ∅
           {| gameState := ∅; clients := ∅ |}).
  - reflexivity.
  - lia.
Defined.

(** ** Messages and broadcasts *)

(** X12 (what a client message can touch): a message never changes the
    map of connections nor any player but the one of its connection, and
    a message from an unknown connection, or whose "type" is not the
    string "upgrade", or whose "station" is not a string, changes nothing
    at all. *)
Theorem handleClientMessage_frame (gs : GameServer) (conn : Conn)
    (msg : gmap string JSON) :
  clients (handleClientMessage gs conn msg) = clients gs /\
  (forall playerID, clients gs !! conn <> Some playerID ->
     gameState (handleClientMessage gs conn msg) !! playerID
       = gameState gs !! playerID) /\
  (clients gs !! conn = None -> handleClientMessage gs conn msg = gs) /\
  (msg !! "type" <> Some (JString "upgrade") -> handleClientMessage gs conn msg = gs) /\
  ((forall station, msg !! "station" <> Some (JString station)) ->
     handleClientMessage gs conn msg = gs).
Proof.
  unfold handleClientMessage.
  destruct (clients gs !! conn) as [player|] eqn:Hconn;
    [|repeat split; auto].
  destruct (msg !! "type") as [[| | | msgType | |]|] eqn:Htype;
    try (repeat split; auto; fail).
  destruct (String.eqb_spec msgType "upgrade") as [-> | Hne];
    [|repeat split; auto].
  destruct (msg !! "station") as [[| | | station | |]|] eqn:Hstation;
    try (repeat split; auto; fail).
  cbn [clients gameState]. repeat split.
  - intros playerID Hother. apply lookup_alter_ne. congruence.
  - discriminate.
  - intros H. exfalso. apply H. reflexivity.
  - intros H. exfalso. apply (H station). reflexivity.
Qed.

Lemma write_to_step (failed : Conn -> bool) (m : gmap Conn string)
    (w : list Conn) (x : Conn) :
  write_to failed (m, w) x =
    if failed x then (delete x m, w) else (m, x :: w).
Proof. reflexivity. Qed.

Lemma pass_connections (failed : Conn -> bool) (order : list Conn) :
  forall (m : gmap Conn string) (w : list Conn) (c : Conn),
    fst (foldl (write_to failed) (m, w) order) !! c =
      if decide (c ∈ order) then (if failed c then None else m !! c)
      else m !! c.
Proof.
  induction order as [|x order IH]; intros m w c; cbn [foldl].
  - destruct (decide (c ∈ [])) as [H|_]; [inversion H | reflexivity].
  - rewrite write_to_step.
    destruct (decide (c = x)) as [-> | Hne].
    + rewrite decide_True by (left).
      destruct (failed x) eqn:Hx; rewrite IH.
      * rewrite lookup_delete_eq, Hx. destruct (decide (x ∈ order)); reflexivity.
      * rewrite Hx. destruct (decide (x ∈ order)); reflexivity.
    + assert (Hiff : c ∈ x :: order <-> c ∈ order)
        by (rewrite elem_of_cons; intuition congruence).
      destruct (failed x) eqn:Hx; rewrite IH;
        rewrite ?lookup_delete_ne by congruence;
        destruct (decide (c ∈ order)) as [Hin | Hout];
        [ rewrite decide_True by (apply Hiff, Hin)
        | rewrite decide_False by (rewrite Hiff; exact Hout)
        | rewrite decide_True by (apply Hiff, Hin)
        | rewrite decide_False by (rewrite Hiff; exact Hout) ];
        reflexivity.
Qed.

Lemma pass_written (failed : Conn -> bool) (order : list Conn) :
  forall (m : gmap Conn string) (w : list Conn) (c : Conn),
    c ∈ snd (foldl (write_to failed) (m, w) order) <->
    c ∈ w \/ (c ∈ order /\ failed c = false).
Proof.
  induction order as [|x order IH]; intros m w c; cbn [foldl].
  - cbn. split; [auto|]. intros [H | [H _]]; [exact H | inversion H].
  - rewrite write_to_step. destruct (failed x) eqn:Hx; rewrite IH.
    + rewrite elem_of_cons. split.
      * intros [H | [H Hc]]; auto.
      * intros [H | [[-> | H] Hc]]; auto. congruence.
    + rewrite !elem_of_cons. split.
      * intros [[-> | H] | [H Hc]]; auto.
      * intros [H | [[-> | H] Hc]]; auto.
Qed.

Lemma pass_written_once (failed : Conn -> bool) (order : list Conn) :
  forall (m : gmap Conn string) (w : list Conn),
    NoDup order -> NoDup w -> (forall c, c ∈ order -> c ∉ w) ->
    NoDup (snd (foldl (write_to failed) (m, w) order)).
Proof.
  induction order as [|x order IH]; intros m w Hord Hw Hdis; cbn [foldl];
    [exact Hw|].
  apply NoDup_cons in Hord as [Hx Hord].
  rewrite write_to_step. destruct (failed x).
  - apply IH; auto. intros c Hc. apply Hdis. right. exact Hc.
  - apply IH; auto.
    + apply NoDup_cons. split; [|exact Hw]. apply Hdis. left.
    + intros c Hc Hin. apply elem_of_cons in Hin as [-> | Hin]; [auto|].
      apply (Hdis c); [right|]; auto.
Qed.

(** X13 (a failed write costs one connection only): after one pass of
    [handleMessages] over the connections, in whatever order the map is
    traversed, the connections whose write failed are gone, all others are
    kept with their player, and the message was written exactly once to
    each of those others. *)
Theorem handleMessages_pass_result (failed : Conn -> bool) (order : list Conn)
    (connections : gmap Conn string) :
  NoDup order ->
  (forall c, c ∈ order <-> is_Some (connections !! c)) ->
  let result := handleMessages_pass failed order connections in
  (forall c, fst result !! c = if failed c then None else connections !! c) /\
  (forall c, c ∈ snd result <-> is_Some (connections !! c) /\ failed c = false) /\
  NoDup (snd result).
Proof.
  intros Hnd Hdom. cbv zeta. unfold handleMessages_pass.
  split; [|split].
  - intros c. rewrite pass_connections.
    destruct (decide (c ∈ order)) as [Hin | Hout]; [reflexivity|].
    destruct (connections !! c) eqn:Hc; [|destruct (failed c); reflexivity].
    exfalso. apply Hout, Hdom. eauto.
  - intros c. rewrite pass_written, <- Hdom. split.
    + intros [H | H]; [inversion H | exact H].
    + auto.
  - apply pass_written_once; [exact Hnd | constructor |].
    intros c _ H. inversion H.
Qed.

Lemma handleMessages_pass_result_witness :
  let result := handleMessages_pass first_failed [1%positive; 2%positive] two_connections in
  (forall c, fst result !! c = if first_failed c then None else two_connections !! c) /\
  (forall c, c ∈ snd result <-> is_Some (two_connections !! c) /\ first_failed c = false) /\
  NoDup (snd result).
Proof.
  apply (handleMessages_pass_result first_failed [1%positive; 2%positive] two_connections).
  - apply NoDup_cons. split; [|apply NoDup_singleton].
    intros H. apply list_elem_of_singleton in H. discriminate.
  - intros c. unfold two_connections. rewrite !elem_of_cons.
    split.
    + intros [-> | [-> | H]]; [eexists; reflexivity | eexists; reflexivity | inversion H].
    + intros [v Hv].
      destruct (decide (c = 1%positive)) as [-> | H1]; [auto|].
      destruct (decide (c = 2%positive)) as [-> | H2]; [auto|].
      rewrite lookup_insert_ne, lookup_singleton_ne in Hv by congruence.
      discriminate.
Defined.

(** ** The HTTP handlers *)

Lemma getOrCreatePlayer_stored (now : Z) (playerID : string)
    (Players Players' : gmap string Player) (player : Player) :
  getOrCreatePlayer now playerID Players = Returns (Players', player) ->
  Players' !! playerID = Some player /\
  (forall other, other <> playerID -> Players' !! other = Players !! other) /\
  LastSeen player = now /\
  (forall old, Players !! playerID = Some old ->
     factory player = factory old /\ progress player = progress old).
Proof.
  unfold getOrCreatePlayer.
  destruct (Players !! playerID) as [old|] eqn:Hold.
  - intros [= <- <-]. rewrite lookup_insert_eq. cbn.
    split; [reflexivity|]. split; [|split; [reflexivity|]].
    + intros other Hne. apply lookup_insert_ne. congruence.
    + intros old' [= <-]. auto.
  - destruct (slice_to playerID 8) as [prefix|]; [|discriminate].
    intros [= <- <-]. rewrite lookup_insert_eq. cbn.
    split; [reflexivity|]. split; [|split; [reflexivity | discriminate]].
    intros other Hne. apply lookup_insert_ne. congruence.
Qed.

(** X14 (refused upgrade requests): [handleUpgrade] answers every request
    whose method is not POST with status 405, and every POST that lacks
    the player identifier or the station with status 400, in both cases
    without panicking and with the registry as it was; and it gives an
    error answer in no other case. *)
Theorem handleUpgrade_error (now : Z) (r : Request) (Players : gmap string Player) :
  (Method r <> "POST" ->
   handleUpgrade now r Players = Returns (Players, Error 405)) /\
  (Method r = "POST" ->
   query_get (Query r) "playerID" = EmptyString \/
   query_get (Query r) "station" = EmptyString ->
   handleUpgrade now r Players = Returns (Players, Error 400)) /\
  (forall Players' code,
     handleUpgrade now r Players = Returns (Players', Error code) ->
     Players' = Players /\
     ((code = 405 /\ Method r <> "POST") \/
      (code = 400 /\ Method r = "POST" /\
       (query_get (Query r) "playerID" = EmptyString \/
        query_get (Query r) "station" = EmptyString)))).
Proof.
  unfold handleUpgrade.
  destruct (String.eqb_spec (Method r) "POST") as [Hpost | Hother]; cbn [negb].
  - split; [intros H; contradiction|].
    destruct (String.eqb_spec (query_get (Query r) "playerID") "") as [Hid | Hid];
      cbn [orb].
    + split; [reflexivity|]. intros Players' code [= <- <-]. auto 6.
    + destruct (String.eqb_spec (query_get (Query r) "station") "") as [Hst | Hst].
      * split; [reflexivity|]. intros Players' code [= <- <-]. auto 6.
      * split; [intros _ [H | H]; contradiction|].
        intros Players' code.
        destruct (getOrCreatePlayer now _ Players) as [[Players1 player]|];
          discriminate.
  - split; [reflexivity|]. split; [intros H; contradiction|].
    intros Players' code [= <- <-]. auto.
Qed.

(** X15 (an answered upgrade request): when [handleUpgrade] answers with a
    player, the request was a POST naming a player and a station, the
    player of the answer is the one the registry holds afterwards, stamped
    with the time of the request, and no other player has changed; for a
    player who was registered before, dungeon level and experience are
    those of before and the progress is either untouched or the gold is
    lowered by the cost of one of the stations. *)
Theorem handleUpgrade_answer (now : Z) (r : Request)
    (Players Players' : gmap string Player) (player : Player) :
  handleUpgrade now r Players = Returns (Players', Encoded player) ->
  let playerID := query_get (Query r) "playerID" in
  Method r = "POST" /\
  playerID <> EmptyString /\
  query_get (Query r) "station" <> EmptyString /\
  Players' !! playerID = Some player /\
  (forall other, other <> playerID -> Players' !! other = Players !! other) /\
  LastSeen player = now /\
  (forall old, Players !! playerID = Some old ->
     DungeonLevel (progress player) = DungeonLevel (progress old) /\
     Experience (progress player) = Experience (progress old) /\
     (progress player = progress old \/
      exists r0, Gold (progress player)
                 = GoInt.sub (Gold (progress old)) (Cost (deref (factory old) r0)))).
Proof.
  unfold handleUpgrade. cbv zeta.
  destruct (String.eqb_spec (Method r) "POST") as [Hpost | Hother]; cbn [negb];
    [|discriminate].
  destruct (String.eqb_spec (query_get (Query r) "playerID") "") as [Hid | Hid];
    cbn [orb]; [discriminate|].
  destruct (String.eqb_spec (query_get (Query r) "station") "") as [Hst | Hst];
    [discriminate|].
  destruct (getOrCreatePlayer now _ Players) as [[Players1 created]|] eqn:Hget;
    [|discriminate].
  intros [= <- <-].
  apply getOrCreatePlayer_stored in Hget as (Hstored & Hframe & Hseen & Hold).
  rewrite upgradeStation_UpgradeStation.
  destruct (UpgradeStation created (query_get (Query r) "station"))
    as [upgraded_player ok] eqn:Hup.
  cbn [fst]. rewrite lookup_insert_eq.
  split; [exact Hpost|]. split; [exact Hid|]. split; [exact Hst|].
  split; [reflexivity|]. split; [|split].
  - intros other Hne. rewrite lookup_insert_ne by congruence. auto.
  - destruct ok.
    + apply UpgradeStation_true in Hup as (_ & _ & _ & _ & _ & _ & _ & ->). exact Hseen.
    + apply UpgradeStation_false in Hup as ->. exact Hseen.
  - intros old Holdp. destruct (Hold old Holdp) as [Hf Hp].
    destruct ok.
    + apply UpgradeStation_true in Hup as (r0 & _ & _ & _ & -> & _).
      cbn [DungeonLevel Experience Gold]. rewrite Hp, Hf.
      split; [reflexivity|]. split; [reflexivity|]. right. exists r0. reflexivity.
    + apply UpgradeStation_false in Hup as ->. rewrite Hp. auto.
Qed.

Lemma handleUpgrade_answer_witness :
  let playerID := query_get (Query post_upgrade) "playerID" in
  Method post_upgrade = "POST" /\
  playerID <> EmptyString /\
  query_get (Query post_upgrade) "station" <> EmptyString /\
  novice_registry !! playerID = Some novice /\
  (forall other, other <> playerID ->
     novice_registry !! other = (∅ : gmap string Player) !! other) /\
  LastSeen novice = 0 /\
  (forall old, (∅ : gmap string Player) !! playerID = Some old ->
     DungeonLevel (progress novice) = DungeonLevel (progress old) /\
     Experience (progress novice) = Experience (progress old) /\
     (progress novice = progress old \/
      exists r0, Gold (progress novice)
                 = GoInt.sub (Gold (progress old)) (Cost (deref (factory old) r0)))).
Proof.
  apply (handleUpgrade_answer 0 post_upgrade ∅ novice_registry novice).
  vm_compute. reflexivity.
Defined.

(** X16 (reading a player): [handlePlayer] answers 400 and leaves the
    registry alone when the request names no player; it panics when the
    named player is not registered and the name is shorter than eight
    bytes; in every other case it answers with a player, who is the one
    the registry holds afterwards, no other player has changed, and a
    player who was registered before has the factory and the progress of
    before: only the time of the last visit is written. *)
Theorem handlePlayer_answer (now : Z) (r : Request) (Players : gmap string Player) :
  let playerID := query_get (Query r) "id" in
  (playerID = EmptyString ->
   handlePlayer now r Players = Returns (Players, Error 400)) /\
  (playerID <> EmptyString -> Players !! playerID = None ->
   (String.length playerID < 8)%nat ->
   handlePlayer now r Players = Panics) /\
  (playerID <> EmptyString ->
   is_Some (Players !! playerID) \/ (8 <= String.length playerID)%nat ->
   exists Players' player,
     handlePlayer now r Players = Returns (Players', Encoded player) /\
     Players' !! playerID = Some player /\
     (forall other, other <> playerID -> Players' !! other = Players !! other) /\
     LastSeen player = now /\
     (forall old, Players !! playerID = Some old ->
        factory player = factory old /\ progress player = progress old)).
Proof.
  unfold handlePlayer. cbv zeta.
  destruct (String.eqb_spec (query_get (Query r) "id") "") as [Hid | Hid].
  - split; [reflexivity|]. split; intros H; contradiction.
  - split; [intros H; contradiction|]. split.
    + intros _ Hnone Hshort.
      rewrite (getOrCreatePlayer_short now _ Players Hnone Hshort). reflexivity.
    + intros _ Hok.
      destruct (getOrCreatePlayer now (query_get (Query r) "id") Players)
        as [[Players1 player]|] eqn:Hget.
      * exists Players1, player. split; [reflexivity|].
        exact (getOrCreatePlayer_stored _ _ _ _ _ Hget).
      * exfalso. unfold getOrCreatePlayer, slice_to in Hget.
        destruct (Players !! query_get (Query r) "id") as [old|];
          [discriminate|].
        destruct Hok as [[old Hold] | Hlen]; [discriminate|].
        apply Nat.leb_le in Hlen. rewrite Hlen in Hget. discriminate.
Qed.

(** X17 (the two servers upgrade alike): [upgradeStation] of the
    single-file server leaves the player [UpgradeStation] of the packaged
    server leaves, whatever the station key and the gold: the player as
    it was in the calls the packaged server reports as failed, and the
    level of the station raised by one in those it reports as
    successful. *)
Theorem servers_upgrade_alike (player : Player) (stationType : string) :
  upgradeStation player stationType = fst (UpgradeStation player stationType) /\
  (snd (UpgradeStation player stationType) = false ->
   upgradeStation player stationType = player) /\
  (snd (UpgradeStation player stationType) = true ->
   Level <$> station_of (upgradeStation player stationType) stationType
     = (fun s => GoInt.add (Level s) 1) <$> station_of player stationType).
Proof.
  rewrite upgradeStation_UpgradeStation.
  destruct (UpgradeStation player stationType) as [player' ok] eqn:Hup.
  cbn [fst snd]. split; [reflexivity|]. split.
  - intros ->. apply UpgradeStation_false in Hup. exact Hup.
  - intros ->. apply UpgradeStation_true in Hup as (r & Hr & _ & Hf & _).
    unfold station_of.
    rewrite (getStationByType_factory (factory player') (factory player)), Hr.
    cbn. rewrite Hf, deref_store_same. reflexivity.
Qed.

(** ** Stations in the registry *)

Lemma station_level_table : forallb station_level_ok (seq 0 97) = true.
Proof. vm_compute. reflexivity. Qed.

Lemma upgrades_known (stationType : string) (n : nat) (p q : Player) :
  station_of p stationType = Some defaultStation ->
  upgrades stationType n p q ->
  (n <= 96)%nat ->
  station_of q stationType = Some (iter_upgraded n) /\
  Level (iter_upgraded n) = 1 + Z.of_nat n /\
  (multiplier_error (Multiplier (iter_upgraded n)) n <= tolerance)%Q.
Proof.
  intros Hp Hup Hn. split; [exact (upgrades_station _ _ _ _ Hup _ Hp)|].
  pose proof station_level_table as T. rewrite forallb_forall in T.
  assert (Hin : In n (seq 0 97)) by (apply in_seq; lia).
  specialize (T n Hin). unfold station_level_ok in T.
  apply andb_prop in T as [Hlevel Hmul].
  apply Z.eqb_eq in Hlevel. apply Qle_bool_iff in Hmul. auto.
Qed.

Lemma rich_upgrades_armor_4 : upgrades "armor" 4 rich (upgrade_n 4 "armor" rich).
Proof.
  apply upgrades_upgrade_n. intros k Hk.
  assert (Hc : k = 0%nat \/ k = 1%nat \/ k = 2%nat \/ k = 3%nat) by lia.
  destruct Hc as [-> | [-> | [-> | ->]]]; vm_compute; reflexivity.
Qed.

(** X18 (a station is determined by its level): when upgrade calls on a
    station run one after another (no two of them overlap), a station
    that started at its default and was upgraded [n <= 96] times has level
    [1 + n] and a multiplier within [10 ^ -9] of [1.0 + 0.2 * n], and two
    such stations of the same level, of whatever players and kinds, are
    equal in multiplier and cost. *)
Theorem station_determined_by_level (type1 type2 : string) (n1 n2 : nat)
    (p1 q1 p2 q2 : Player) :
  station_of p1 type1 = Some defaultStation ->
  station_of p2 type2 = Some defaultStation ->
  upgrades type1 n1 p1 q1 ->
  upgrades type2 n2 p2 q2 ->
  (n1 <= 96)%nat -> (n2 <= 96)%nat ->
  exists s1 s2,
    station_of q1 type1 = Some s1 /\
    station_of q2 type2 = Some s2 /\
    Level s1 = 1 + Z.of_nat n1 /\
    (multiplier_error (Multiplier s1) n1 <= tolerance)%Q /\
    (Level s1 = Level s2 -> s1 = s2).
Proof.
  intros Hp1 Hp2 Hup1 Hup2 Hn1 Hn2.
  destruct (upgrades_known _ _ _ _ Hp1 Hup1 Hn1) as (Hs1 & L1 & M1).
  destruct (upgrades_known _ _ _ _ Hp2 Hup2 Hn2) as (Hs2 & L2 & _).
  exists (iter_upgraded n1), (iter_upgraded n2).
  repeat split; auto.
  rewrite L1, L2. intros Heq.
  assert (n1 = n2) as -> by lia. reflexivity.
Qed.

Lemma station_determined_by_level_witness :
  exists s1 s2,
    station_of (upgrade_n 4 "hp" rich) "hp" = Some s1 /\
    station_of (upgrade_n 4 "armor" rich) "armor" = Some s2 /\
    Level s1 = 1 + Z.of_nat 4 /\
    (multiplier_error (Multiplier s1) 4 <= tolerance)%Q /\
    (Level s1 = Level s2 -> s1 = s2).
Proof.
  apply (station_determined_by_level "hp" "armor" 4 4
           rich (upgrade_n 4 "hp" rich) rich (upgrade_n 4 "armor" rich)).
  - reflexivity.
  - reflexivity.
  - exact rich_upgrades_4.
  - exact rich_upgrades_armor_4.
  - lia.
  - lia.
Defined.
